(** * timeduration: the duration scanner and the normalized duration value

    A shallow embedding of [include/timeduration/timeduration.hpp]
    (class [CTimePeriod] and its nested [CScanner]) and the properties of
    its parsing, normalization, formatting and comparison operations.

    Conventions of the embedding.
    - [int64_t] and the [chrono] representations are [Z]; arithmetic that
      can leave the 64-bit range is written with its two's complement
      wrap-around ([add64], [mul64]).  Division and remainder are the
      truncating C++ ones ([Z.quot], [Z.rem]).
    - [std::string] is [string]; [char] is [ascii].
    - The two [std::map]s are [gmap]s.
    - The scanner is a state machine over its member variables; its member
      functions are computations in a state-and-exception monad [M].
      The [while] loops take a fuel argument, and running out of it is a
      separate outcome that [Parse] is proved never to produce
      ([Parse_total]).
    - The positions [m_Start] and [m_Current] are [nat]: they move between
      0 and the length of the source, which the [int] of the program holds
      for sources shorter than [2 ^ 31]. *)

From Stdlib Require Import ZArith String Ascii List Lia.
From Stdlib Require Import DecimalString DecimalZ DecimalPos DecimalFacts.
From stdpp Require Import gmap strings list fin_maps.

Local Open Scope Z_scope.

(** ** 64-bit signed integers *)

Definition INT64_MIN : Z := - 2 ^ 63.
Definition INT64_MAX : Z := 2 ^ 63 - 1.

Definition in_int64 (z : Z) : Prop := INT64_MIN <= z <= INT64_MAX.

Definition wrap64 (z : Z) : Z := (z + 2 ^ 63) mod 2 ^ 64 - 2 ^ 63.

Definition add64 (a b : Z) : Z := wrap64 (a + b).
Definition mul64 (a b : Z) : Z := wrap64 (a * b).

(** ** Characters: [isdigit] and [isalpha] of the C locale

    Both are false on the codes above 127. *)

Definition char_code (c : ascii) : nat := nat_of_ascii c.

Definition isdigit (c : ascii) : bool :=
  (48 <=? char_code c)%nat && (char_code c <=? 57)%nat.

Definition isalpha (c : ascii) : bool :=
  ((65 <=? char_code c)%nat && (char_code c <=? 90)%nat)
  || ((97 <=? char_code c)%nat && (char_code c <=? 122)%nat).

(** ** Outcomes: a value, a C++ exception, or a loop that ran out of fuel *)

Inductive exception : Type :=
| out_of_range
| invalid_argument.

Inductive outcome (A : Type) : Type :=
| Ok (a : A)
| Throw (e : exception)
| OutOfFuel.

Arguments Ok {A} a.
Arguments Throw {A} e.
Arguments OutOfFuel {A}.

Definition outcome_bind {A B : Type} (o : outcome A) (k : A -> outcome B)
  : outcome B :=
  match o with
  | Ok a => k a
  | Throw e => Throw e
  | OutOfFuel => OutOfFuel
  end.

Definition outcome_map {A B : Type} (f : A -> B) (o : outcome A) : outcome B :=
  outcome_bind o (fun a => Ok (f a)).

(** ** Decimal conversions of the standard library *)

(** [std::format("{}", n)] for a signed integer: a minus sign for negative
    numbers, then the decimal digits without leading zeros. *)
Definition format_int (n : Z) : string := NilZero.string_of_int (Z.to_int n).

(** [std::stoll] on a run of decimal digits, the only inputs the scanner
    gives it: the value of the numeral, [std::out_of_range] when it does
    not fit [long long], [std::invalid_argument] when there is no digit. *)
Definition stoll (Value : string) : outcome Z :=
  match Value with
  | EmptyString => Throw invalid_argument
  | _ =>
      match NilEmpty.uint_of_string Value with
      | Some d =>
          if Z.of_uint d <=? INT64_MAX then Ok (Z.of_uint d)
          else Throw out_of_range
      | None => Throw invalid_argument
      end
  end.

(** ** The scanner *)

Record CScanner : Type := mkCScanner {
  m_Source : string;
  m_Tokens : gmap string Z;   (* TokenHolder: literal -> multiplier *)
  m_Result : gmap Z Z;        (* ResultHolder: multiplier -> value *)
  m_Start : nat;
  m_Current : nat
}.

Definition set_Result (R : gmap Z Z) (s : CScanner) : CScanner :=
  mkCScanner (m_Source s) (m_Tokens s) R (m_Start s) (m_Current s).

Definition set_Start (i : nat) (s : CScanner) : CScanner :=
  mkCScanner (m_Source s) (m_Tokens s) (m_Result s) i (m_Current s).

Definition set_Current (i : nat) (s : CScanner) : CScanner :=
  mkCScanner (m_Source s) (m_Tokens s) (m_Result s) (m_Start s) i.

(** Member functions run in the state of the scanner. *)
Definition M (A : Type) : Type := CScanner -> outcome (A * CScanner).

Definition ret {A : Type} (a : A) : M A := fun s => Ok (a, s).

Definition bind {A B : Type} (c : M A) (k : A -> M B) : M B :=
  fun s =>
    match c s with
    | Ok (a, s') => k a s'
    | Throw e => Throw e
    | OutOfFuel => OutOfFuel
    end.

Definition gets {A : Type} (f : CScanner -> A) : M A := fun s => Ok (f s, s).
Definition modify (f : CScanner -> CScanner) : M unit := fun s => Ok (tt, f s).
Definition lift {A : Type} (o : outcome A) : M A :=
  fun s => outcome_bind o (fun a => Ok (a, s)).

Declare Scope scan_scope.
Delimit Scope scan_scope with scan.
Notation "'let*' x := c 'in' k" := (bind c (fun x => k))
  (at level 10, x name, c at level 100, k at level 200) : scan_scope.
Notation "c >> k" := (bind c (fun _ => k))
  (at level 61, left associativity) : scan_scope.

(** [while (cond) body;] *)
Fixpoint while_ (fuel : nat) (cond : M bool) (body : M unit) : M unit :=
  match fuel with
  | O => fun _ => OutOfFuel
  | S fuel' =>
      bind cond (fun b =>
        if b then bind body (fun _ => while_ fuel' cond body) else ret tt)
  end.

(** [m_Source[i]]; the index [m_Source.length()] holds the terminating
    null character. *)
Definition source_at (src : string) (i : nat) : ascii :=
  match String.get i src with
  | Some c => c
  | None => zero
  end.

(** [m_Source.substr(pos, n)] *)
Definition substr (pos n : nat) : M string :=
  fun s =>
    if (String.length (m_Source s) <? pos)%nat then Throw out_of_range
    else Ok (substring pos n (m_Source s), s).

Section Scanner.
Local Open Scope scan_scope.

Definition AtEnd : M bool :=
  gets (fun s => (String.length (m_Source s) <=? m_Current s)%nat).

Definition Advance : M ascii :=
  fun s =>
    Ok (source_at (m_Source s) (m_Current s),
        set_Current (S (m_Current s)) s).

Definition Peek : M ascii :=
  let* e := AtEnd in
  if e then ret zero
  else gets (fun s => source_at (m_Source s) (m_Current s)).

(** [AddValue(int64_t Multiplier, int64_t Value)] *)
Definition AddValue (Multiplier Value : Z) : M unit :=
  modify (fun s =>
    match m_Result s !! Multiplier with
    | Some old => set_Result (<[Multiplier := add64 old Value]> (m_Result s)) s
    | None => set_Result (<[Multiplier := Value]> (m_Result s)) s
    end).

(** [AddValue(std::string_view Literal, int64_t Value)] *)
Definition AddValue_Literal (Literal : string) (Value : Z) : M unit :=
  let* Tokens := gets m_Tokens in
  match Tokens !! Literal with
  | Some Multiplier => AddValue Multiplier Value
  | None => ret tt
  end.

Definition ScanToken (fuel : nat) : M unit :=
  let* c := Advance in
  if isdigit c then
    while_ fuel (let* p := Peek in ret (isdigit p)) (Advance >> ret tt) >>
    let* Start := gets m_Start in
    let* Current := gets m_Current in
    let* Value := substr Start (Current - Start) in
    let* Offset := gets m_Current in
    while_ fuel (let* p := Peek in ret (isalpha p)) (Advance >> ret tt) >>
    let* Current' := gets m_Current in
    let* Literal := substr Offset (Current' - Offset) in
    match Literal with
    | EmptyString => let* v := lift (stoll Value) in AddValue 60 v
    | _ => let* v := lift (stoll Value) in AddValue_Literal Literal v
    end
  else ret tt.

Definition ScanTokens (fuel : nat) : M (gmap Z Z) :=
  while_ fuel (let* e := AtEnd in ret (negb e))
    (modify (fun s => set_Start (m_Current s) s) >> ScanToken fuel) >>
  gets m_Result.
End Scanner.

(** [CScanner(Source, Multipliers)] *)
Definition CScanner_new (Source : string) (Multipliers : gmap string Z)
  : CScanner :=
  mkCScanner Source Multipliers ∅ 0 0.

(** ** The duration value *)

Record CTimePeriod : Type := mkCTimePeriod {
  m_TotalDuration : Z;
  m_Days : Z;
  m_Hours : Z;
  m_Minutes : Z;
  m_Seconds : Z
}.

Definition Validate (p : CTimePeriod) : CTimePeriod :=
  let TotalSeconds := m_TotalDuration p in
  let Days := TotalSeconds ÷ 86400 in
  let TotalSeconds := Z.rem TotalSeconds 86400 in
  let Hours := TotalSeconds ÷ 3600 in
  let TotalSeconds := Z.rem TotalSeconds 3600 in
  let Minutes := TotalSeconds ÷ 60 in
  let Seconds := Z.rem TotalSeconds 60 in
  mkCTimePeriod (m_TotalDuration p) Days Hours Minutes Seconds.

Definition with_TotalDuration (T : Z) : CTimePeriod :=
  mkCTimePeriod T 0 0 0 0.

(** The unit table that [Parse] hands to the scanner. *)
Definition unit_table : gmap string Z :=
  list_to_map
    [ ("s"%string, 1); ("seconds"%string, 1);
      ("m"%string, 60); ("minutes"%string, 60);
      ("h"%string, 3600); ("hours"%string, 3600);
      ("d"%string, 86400); ("days"%string, 86400);
      ("mo"%string, 2419200); ("months"%string, 2419200);
      ("y"%string, 31536000); ("years"%string, 31536000) ].

(** The loop of [Parse] over the scan result.  [std::map] iterates in key
    order and [map_fold] in an order of its own; the wrapping sum does not
    depend on the order ([total_step_comm]). *)
Definition total_of (Result : gmap Z Z) : Z :=
  map_fold (fun Multiplier Value TotalDuration =>
              add64 TotalDuration (mul64 Multiplier Value)) 0 Result.

Definition Parse (from : string) : outcome Z :=
  let Scanner := CScanner_new from unit_table in
  outcome_bind (ScanTokens (S (String.length from)) Scanner)
    (fun r => Ok (total_of (fst r))).

(** [CTimePeriod(seconds, minutes, hours, days)] *)
Definition CTimePeriod_components (seconds minutes hours days : Z)
  : CTimePeriod :=
  Validate (with_TotalDuration
    (add64 (add64 (add64 seconds (mul64 minutes 60)) (mul64 hours 3600))
           (mul64 days 86400))).

(** [CTimePeriod(std::string_view from)] *)
Definition CTimePeriod_string (from : string) : outcome CTimePeriod :=
  outcome_bind (Parse from) (fun T => Ok (Validate (with_TotalDuration T))).

(** [CTimePeriod(std::chrono::seconds duration)] *)
Definition CTimePeriod_duration (duration : Z) : CTimePeriod :=
  Validate (with_TotalDuration duration).

Definition ParseFactory (from : string) : outcome CTimePeriod :=
  outcome_bind (Parse from) (fun T => Ok (CTimePeriod_duration T)).

Definition duration (p : CTimePeriod) : Z := m_TotalDuration p.
Definition days (p : CTimePeriod) : Z := m_Days p.
Definition hours (p : CTimePeriod) : Z := m_Hours p.
Definition minutes (p : CTimePeriod) : Z := m_Minutes p.
Definition seconds (p : CTimePeriod) : Z := m_Seconds p.

Definition isZero (p : CTimePeriod) : bool := m_TotalDuration p =? 0.

Definition asSqlInterval (p : CTimePeriod) : string :=
  "interval " +:+ format_int (m_TotalDuration p) +:+ " second".

Definition string_empty (s : string) : bool :=
  match s with
  | EmptyString => true
  | _ => false
  end.

Definition toString (p : CTimePeriod) : string :=
  let result := EmptyString in
  let result :=
    if 0 <? m_Days p then result +:+ (format_int (m_Days p) +:+ "d ")
    else result in
  let result :=
    if 0 <? m_Hours p then result +:+ (format_int (m_Hours p) +:+ "h ")
    else result in
  let result :=
    if 0 <? m_Minutes p then result +:+ (format_int (m_Minutes p) +:+ "m ")
    else result in
  let result :=
    if (0 <? m_Seconds p) || string_empty result
    then result +:+ (format_int (m_Seconds p) +:+ "s")
    else result in
  result.

(** The defaulted [operator<=>]: the members compared in the order of their
    declaration, the first difference decides. *)
Definition lex (c : comparison) (rest : comparison) : comparison :=
  match c with
  | Eq => rest
  | _ => c
  end.

Definition spaceship (a b : CTimePeriod) : comparison :=
  lex (m_TotalDuration a ?= m_TotalDuration b)
  (lex (m_Days a ?= m_Days b)
  (lex (m_Hours a ?= m_Hours b)
  (lex (m_Minutes a ?= m_Minutes b)
       (m_Seconds a ?= m_Seconds b)))).

(** [a < b], rewritten by the compiler to [(a <=> b) < 0]. *)
Definition operator_lt (a b : CTimePeriod) : bool :=
  match spaceship a b with
  | Lt => true
  | _ => false
  end.

(** The [operator==] that a defaulted [operator<=>] declares: member-wise
    equality. *)
Definition operator_eq (a b : CTimePeriod) : bool :=
  (m_TotalDuration a =? m_TotalDuration b)
  && (m_Days a =? m_Days b)
  && (m_Hours a =? m_Hours b)
  && (m_Minutes a =? m_Minutes b)
  && (m_Seconds a =? m_Seconds b).

(** The values a program can hold: those built by one of the three
    constructors (the members are private and nothing mutates them). *)
Inductive constructed : CTimePeriod -> Prop :=
| constructed_components (s m h d : Z) :
    in_int64 s -> in_int64 m -> in_int64 h -> in_int64 d ->
    constructed (CTimePeriod_components s m h d)
| constructed_string (from : string) (p : CTimePeriod) :
    CTimePeriod_string from = Ok p -> constructed p
| constructed_duration (T : Z) :
    in_int64 T -> constructed (CTimePeriod_duration T).

(** ** Auxiliary notions for the proofs

    None of these is part of the program; [ScanTokens_scan_all] and
    [Parse_scan_all] tie [scan_all] to [ScanTokens] and to [Parse]. *)

(** The characters of the source of a scanner. *)
Definition chars (st : CScanner) : list ascii :=
  list_ascii_of_string (m_Source st).

(** The accumulator a run of the scanner ends with. *)
Definition result_of (o : outcome (unit * CScanner)) : outcome (gmap Z Z) :=
  outcome_map (fun r => m_Result (snd r)) o.

(** The length of the longest prefix of [l] whose characters all have [p]:
    how far [while (p(Peek())) Advance();] moves. *)
Fixpoint span_len (p : ascii -> bool) (l : list ascii) : nat :=
  match l with
  | c :: l' => if p c then S (span_len p l') else O
  | [] => O
  end.

Definition starts_with (p : ascii -> bool) (l : list ascii) : bool :=
  match l with
  | c :: _ => p c
  | [] => false
  end.

(** What the two [AddValue] do to the accumulator. *)
Definition add_value (Multiplier Value : Z) (R : gmap Z Z) : gmap Z Z :=
  match R !! Multiplier with
  | Some old => <[Multiplier := add64 old Value]> R
  | None => <[Multiplier := Value]> R
  end.

Definition add_literal (Tokens : gmap string Z) (Literal : string) (Value : Z)
    (R : gmap Z Z) : gmap Z Z :=
  match Literal with
  | EmptyString => add_value 60 Value R
  | _ =>
      match Tokens !! Literal with
      | Some Multiplier => add_value Multiplier Value R
      | None => R
      end
  end.

(** The loop of [ScanTokens] on the characters from [m_Current] on: a digit
    starts a token, the longest run of digits and the longest run of
    letters after it; any other character is passed over. *)
Fixpoint scan_chars (fuel : nat) (Tokens : gmap string Z) (l : list ascii)
    (R : gmap Z Z) : outcome (gmap Z Z) :=
  match fuel with
  | O => OutOfFuel
  | S fuel' =>
      match l with
      | [] => Ok R
      | c :: l' =>
          if isdigit c then
            let nd := span_len isdigit l' in
            let r1 := drop nd l' in
            let na := span_len isalpha r1 in
            outcome_bind (stoll (string_of_list_ascii (c :: take nd l')))
              (fun v =>
                 scan_chars fuel' Tokens (drop na r1)
                   (add_literal Tokens (string_of_list_ascii (take na r1)) v R))
          else scan_chars fuel' Tokens l' R
      end
  end.

Definition scan_all (Tokens : gmap string Z) (l : list ascii) (R : gmap Z Z)
  : outcome (gmap Z Z) :=
  scan_chars (S (length l)) Tokens l R.

(** A text that does not end in a digit.  After such a text the scanner is
    between two tokens, whatever follows, unless a letter follows. *)
Definition ends_clean (pre : list ascii) : Prop :=
  match last pre with
  | Some c => isdigit c = false
  | None => True
  end.

(** One component of [toString]: the number and the text of the unit, or
    nothing when the number is not positive. *)
Definition component (n : Z) (unit : string) : string :=
  if 0 <? n then format_int n +:+ unit else EmptyString.

(** What a token is worth in the total: the value times the multiplier of
    its literal, 60 without a literal, nothing with an unknown one. *)
Definition token_value (Tokens : gmap string Z) (Literal : string) (Value : Z)
  : Z :=
  match Literal with
  | EmptyString => mul64 60 Value
  | _ =>
      match Tokens !! Literal with
      | Some Multiplier => mul64 Multiplier Value
      | None => 0
      end
  end.

Inductive scan_outcome {A : Type} : outcome A -> Prop :=
| scan_outcome_ok (a : A) : scan_outcome (Ok a)
| scan_outcome_range : scan_outcome (Throw out_of_range).

(** The short and the long literal of each unit, as the table of [Parse]
    lists them side by side. *)
Definition unit_aliases : list (string * string) :=
  [ ("s", "seconds"); ("m", "minutes"); ("h", "hours");
    ("d", "days"); ("mo", "months"); ("y", "years") ]%string.

(** The multipliers that can be keys of an accumulator: 60 and those of the
    table. *)
Definition known_multiplier (Tokens : gmap string Z) (k : Z) : Prop :=
  k = 60 \/ exists lit, Tokens !! lit = Some k.

Definition known_keys (Tokens : gmap string Z) (R : gmap Z Z) : Prop :=
  forall k v, R !! k = Some v -> known_multiplier Tokens k.

(** * Properties *)

(** ** Strings as lists of characters *)

Lemma length_list_ascii (s : string) :
  length (list_ascii_of_string s) = String.length s.
Proof. induction s; simpl; congruence. Qed.

Lemma source_at_nth (s : string) (i : nat) :
  source_at s i = nth i (list_ascii_of_string s) zero.
Proof.
  unfold source_at. revert i.
  induction s as [|c s IH]; intros [|i]; simpl; try reflexivity.
  apply IH.
Qed.

Lemma substring_take_drop (s : string) (n m : nat) :
  list_ascii_of_string (substring n m s)
  = take m (drop n (list_ascii_of_string s)).
Proof.
  revert n m. induction s as [|c s IH]; intros [|n] [|m]; simpl;
    try reflexivity.
  - f_equal. apply (IH O m).
  - apply (IH n O).
  - apply (IH n (S m)).
Qed.

Lemma substring_string (s : string) (n m : nat) :
  substring n m s
  = string_of_list_ascii (take m (drop n (list_ascii_of_string s))).
Proof.
  rewrite <- substring_take_drop. symmetry. apply string_of_list_ascii_of_string.
Qed.

Lemma list_ascii_app (s t : string) :
  list_ascii_of_string (s +:+ t)
  = list_ascii_of_string s ++ list_ascii_of_string t.
Proof.
  induction s as [|c s IH]; [reflexivity |].
  change (String c s +:+ t) with (String c (s +:+ t)).
  simpl. rewrite IH. reflexivity.
Qed.

Lemma string_app_nil_r (s : string) : s +:+ EmptyString = s.
Proof.
  induction s as [|c s IH]; [reflexivity |].
  change (String c s +:+ "") with (String c (s +:+ "")). rewrite IH.
  reflexivity.
Qed.

Lemma string_app_assoc (s t u : string) : (s +:+ t) +:+ u = s +:+ (t +:+ u).
Proof.
  induction s as [|c s IH]; [reflexivity |].
  change (String c s +:+ t) with (String c (s +:+ t)).
  change (String c (s +:+ t) +:+ u) with (String c ((s +:+ t) +:+ u)).
  rewrite IH. reflexivity.
Qed.

Lemma string_empty_app (s t : string) :
  string_empty (s +:+ t) = string_empty s && string_empty t.
Proof. destruct s; reflexivity. Qed.

(** ** Characters and runs of characters *)

Lemma isdigit_not_alpha c : isdigit c = true -> isalpha c = false.
Proof.
  unfold isdigit, isalpha. intros H.
  apply andb_true_iff in H as [H1 H2].
  apply Nat.leb_le in H1, H2.
  apply orb_false_iff. split; apply andb_false_iff; left; apply Nat.leb_gt; lia.
Qed.

Lemma isalpha_not_digit c : isalpha c = true -> isdigit c = false.
Proof.
  intros H. destruct (isdigit c) eqn:Hd; [| reflexivity].
  rewrite (isdigit_not_alpha c Hd) in H. discriminate.
Qed.

Lemma span_len_le p l : (span_len p l <= length l)%nat.
Proof. induction l as [|c l IH]; simpl; [lia | destruct (p c); simpl; lia]. Qed.

Lemma drop_nth_cons (l : list ascii) (i : nat) :
  (i < length l)%nat -> drop i l = nth i l zero :: drop (S i) l.
Proof.
  revert i. induction l as [|c l IH]; intros i Hi; simpl in *; [lia |].
  destruct i as [|i]; simpl; [reflexivity |]. apply IH. lia.
Qed.

Lemma span_len_app p (xs rest : list ascii) :
  forallb p xs = true ->
  span_len p (xs ++ rest) = (length xs + span_len p rest)%nat.
Proof.
  induction xs as [|x xs IH]; simpl; [reflexivity |].
  intros H. apply andb_true_iff in H as [Hx Hxs]. rewrite Hx, IH by exact Hxs.
  reflexivity.
Qed.

Lemma span_len_stop p (l : list ascii) :
  starts_with p l = false -> span_len p l = O.
Proof. destruct l as [|c l]; simpl; [reflexivity | intros ->; reflexivity]. Qed.

Lemma span_len_app_stop p (xs ys : list ascii) :
  starts_with p ys = false -> span_len p (xs ++ ys) = span_len p xs.
Proof.
  intros Hys. induction xs as [|x xs IH]; simpl.
  - apply span_len_stop, Hys.
  - destruct (p x); [rewrite IH |]; reflexivity.
Qed.

Lemma span_len_app_last p (xs ys : list ascii) c :
  last xs = Some c -> p c = false -> span_len p (xs ++ ys) = span_len p xs.
Proof.
  intros Hlast Hc. induction xs as [|x xs IH]; [discriminate |].
  simpl. destruct xs as [|x' xs].
  - simpl in Hlast. injection Hlast as ->. rewrite Hc. reflexivity.
  - destruct (p x); [| reflexivity]. f_equal. apply IH. exact Hlast.
Qed.

Lemma ends_clean_drop (n : nat) (pre : list ascii) :
  ends_clean pre -> ends_clean (drop n pre).
Proof.
  unfold ends_clean. revert n. induction pre as [|c pre IH]; intros n H.
  - rewrite drop_nil. exact I.
  - destruct n as [|n]; [exact H |]. simpl. apply IH.
    destruct pre as [|c' pre]; [exact I | exact H].
Qed.

(** ** Arithmetic on 64 bits *)

Lemma wrap64_range z : in_int64 (wrap64 z).
Proof.
  unfold in_int64, wrap64, INT64_MIN, INT64_MAX.
  pose proof (Z.mod_pos_bound (z + 2 ^ 63) (2 ^ 64) ltac:(lia)). lia.
Qed.

Lemma wrap64_id z : in_int64 z -> wrap64 z = z.
Proof.
  unfold in_int64, wrap64, INT64_MIN, INT64_MAX. intros H.
  rewrite Z.mod_small by lia. lia.
Qed.

Lemma wrap64_mod z : wrap64 z mod 2 ^ 64 = z mod 2 ^ 64.
Proof.
  unfold wrap64.
  rewrite <- (Zminus_mod_idemp_l ((z + 2 ^ 63) mod 2 ^ 64)).
  rewrite Z.mod_mod by lia. rewrite Zminus_mod_idemp_l. f_equal. lia.
Qed.

Lemma wrap64_congr a b : a mod 2 ^ 64 = b mod 2 ^ 64 -> wrap64 a = wrap64 b.
Proof.
  intros H. unfold wrap64.
  rewrite <- (Zplus_mod_idemp_l a), <- (Zplus_mod_idemp_l b), H. reflexivity.
Qed.

Lemma wrap64_eqm z : eqm (2 ^ 64) (wrap64 z) z.
Proof. apply wrap64_mod. Qed.

#[local] Instance eqm64_equivalence : Equivalence (eqm (2 ^ 64)) :=
  eqm_setoid (2 ^ 64).
#[local] Instance eqm64_add :
  Proper (eqm (2 ^ 64) ==> eqm (2 ^ 64) ==> eqm (2 ^ 64)) Z.add :=
  Zplus_eqm (2 ^ 64).
#[local] Instance eqm64_wrap64 : Proper (eqm (2 ^ 64) ==> eq) wrap64.
Proof. intros a b H. apply wrap64_congr, H. Qed.
#[local] Instance eqm64_mul :
  Proper (eqm (2 ^ 64) ==> eqm (2 ^ 64) ==> eqm (2 ^ 64)) Z.mul :=
  Zmult_eqm (2 ^ 64).

(** Equations between wrapped sums and products: compare modulo [2 ^ 64],
    where every inner wrap-around disappears. *)
Ltac wrap64_ring :=
  unfold add64, mul64;
  apply wrap64_congr;
  match goal with
  | |- ?a mod _ = ?b mod _ => change (eqm (2 ^ 64) a b)
  end;
  repeat rewrite wrap64_eqm;
  match goal with
  | |- eqm _ ?a ?b => replace a with b by ring; reflexivity
  end.

(** The step of the loop of [Parse] commutes with itself: the order in
    which the entries of the accumulator are visited does not matter. *)
Lemma total_step_comm (k1 v1 k2 v2 t : Z) :
  add64 (add64 t (mul64 k2 v2)) (mul64 k1 v1)
  = add64 (add64 t (mul64 k1 v1)) (mul64 k2 v2).
Proof. wrap64_ring. Qed.

(** ** The total of an accumulator *)

Lemma total_of_empty : total_of ∅ = 0.
Proof. reflexivity. Qed.

Lemma total_of_insert (m v : Z) (R : gmap Z Z) :
  R !! m = None ->
  total_of (<[m := v]> R) = add64 (total_of R) (mul64 m v).
Proof.
  intros H. unfold total_of.
  rewrite map_fold_insert_L; [reflexivity | | exact H].
  intros. apply total_step_comm.
Qed.

Lemma total_of_range (R : gmap Z Z) : in_int64 (total_of R).
Proof.
  unfold total_of.
  apply (map_fold_weak_ind (fun (t : Z) (_ : gmap Z Z) => in_int64 t)).
  - unfold in_int64, INT64_MIN, INT64_MAX. lia.
  - intros. apply wrap64_range.
Qed.

(** Whatever the accumulator holds, [AddValue] moves the total that [Parse]
    computes from it by [Multiplier * Value]. *)
Lemma total_of_add_value (m v : Z) (R : gmap Z Z) :
  total_of (add_value m v R) = add64 (total_of R) (mul64 m v).
Proof.
  unfold add_value. destruct (R !! m) as [old|] eqn:Hm.
  - rewrite <- (insert_delete_id R m old Hm) at 2.
    rewrite <- insert_delete_eq.
    rewrite !total_of_insert by apply lookup_delete_eq.
    wrap64_ring.
  - apply total_of_insert, Hm.
Qed.

(** ** Decimal numerals *)

Lemma string_of_uint_digits (d : Decimal.uint) :
  forallb isdigit (list_ascii_of_string (NilEmpty.string_of_uint d)) = true.
Proof. induction d; simpl; auto. Qed.

Lemma format_int_nonneg (n : Z) :
  0 <= n ->
  exists d, d <> Decimal.Nil
            /\ format_int n = NilEmpty.string_of_uint d
            /\ Z.of_uint d = n.
Proof.
  intros Hn. destruct n as [|p|p]; [| | lia].
  - exists (Decimal.D0 Decimal.Nil). repeat split. discriminate.
  - exists (Pos.to_uint p). split; [apply Unsigned.to_uint_nonnil |].
    split.
    + unfold format_int. simpl.
      pose proof (Unsigned.to_uint_nonnil p).
      destruct (Pos.to_uint p); [congruence | reflexivity ..].
    + unfold Z.of_uint. rewrite Unsigned.of_to. reflexivity.
Qed.

(** The text [std::format] prints for a number that is not negative: at
    least one character, digits only. *)
Lemma format_int_digits (n : Z) :
  0 <= n ->
  exists c ds, list_ascii_of_string (format_int n) = c :: ds
               /\ isdigit c = true /\ forallb isdigit ds = true.
Proof.
  intros Hn. destruct (format_int_nonneg n Hn) as (d & Hd & -> & _).
  pose proof (string_of_uint_digits d) as H.
  destruct d; try congruence; simpl in *; eexists _, _;
    (split; [reflexivity | split; [reflexivity | exact H]]).
Qed.

(** [std::stoll] reads back what [std::format] printed. *)
Lemma stoll_format_int (n : Z) :
  0 <= n <= INT64_MAX -> stoll (format_int n) = Ok n.
Proof.
  intros [Hn Hmax]. destruct (format_int_nonneg n Hn) as (d & Hd & -> & Hv).
  unfold stoll. rewrite NilEmpty.usu, Hv.
  destruct (Z.leb_spec n INT64_MAX); [| lia].
  destruct d; try congruence; reflexivity.
Qed.

Lemma format_int_reads_back (n : Z) :
  option_map Z.of_int (NilZero.int_of_string (format_int n)) = Some n.
Proof.
  unfold format_int. rewrite NilZero.isi.
  - cbn [option_map]. rewrite DecimalZ.of_to. reflexivity.
  - destruct n as [|p|p]; try discriminate.
    intros H. injection H as H. exact (Unsigned.to_uint_nonnil p H).
  - destruct n as [|p|p]; try discriminate.
    intros H. injection H as H. exact (Unsigned.to_uint_nonnil p H).
Qed.

(** ** The member functions of the scanner, one by one *)

Local Open Scope scan_scope.

Lemma set_Current_twice i j st :
  set_Current i (set_Current j st) = set_Current i st.
Proof. reflexivity. Qed.

Lemma set_Current_same st : set_Current (m_Current st) st = st.
Proof. destruct st; reflexivity. Qed.

Lemma bind_unfold {A B} (c : M A) (k : A -> M B) s :
  bind c k s = match c s with
               | Ok (a, s') => k a s'
               | Throw e => Throw e
               | OutOfFuel => OutOfFuel
               end.
Proof. reflexivity. Qed.

Lemma while_unfold fuel (cond : M bool) (body : M unit) st :
  while_ (S fuel) cond body st
  = match cond st with
    | Ok (b, s') =>
        if b then
          match body s' with
          | Ok (_, s'') => while_ fuel cond body s''
          | Throw e => Throw e
          | OutOfFuel => OutOfFuel
          end
        else Ok (tt, s')
    | Throw e => Throw e
    | OutOfFuel => OutOfFuel
    end.
Proof.
  cbn [while_]. unfold bind, ret.
  destruct (cond st) as [[[] s'] | e |]; reflexivity.
Qed.

Lemma peek_test_run (p : ascii -> bool) st :
  (let* c := Peek in ret (p c)) st
  = Ok (p (if (length (chars st) <=? m_Current st)%nat then zero
           else nth (m_Current st) (chars st) zero), st).
Proof.
  unfold Peek, AtEnd, bind, gets, ret.
  rewrite <- length_list_ascii. fold (chars st).
  destruct (length (chars st) <=? m_Current st)%nat; [reflexivity |].
  rewrite source_at_nth. reflexivity.
Qed.

Lemma advance_run st :
  (Advance >> ret tt) st = Ok (tt, set_Current (S (m_Current st)) st).
Proof. reflexivity. Qed.

(** [while (p(Peek())) Advance();] stops after the longest run of
    characters with [p], given fuel for the characters that are left. *)
Lemma while_advance (p : ascii -> bool) (fuel : nat) (st : CScanner) :
  p zero = false ->
  (length (chars st) - m_Current st < fuel)%nat ->
  while_ fuel (let* c := Peek in ret (p c)) (Advance >> ret tt) st
  = Ok (tt, set_Current
              (m_Current st + span_len p (drop (m_Current st) (chars st))) st).
Proof.
  intros Hz. revert st.
  induction fuel as [|fuel IH]; intros st Hf; [lia |].
  rewrite while_unfold, peek_test_run.
  destruct (Nat.leb_spec (length (chars st)) (m_Current st)) as [Hge | Hlt].
  - rewrite Hz. rewrite drop_ge by lia. simpl.
    rewrite Nat.add_0_r, set_Current_same. reflexivity.
  - rewrite (drop_nth_cons _ _ Hlt). simpl span_len.
    destruct (p (nth (m_Current st) (chars st) zero)).
    + rewrite advance_run. rewrite IH by (simpl; unfold chars in *; simpl; lia).
      rewrite set_Current_twice. simpl m_Current.
      replace (chars (set_Current (S (m_Current st)) st)) with (chars st)
        by reflexivity.
      do 3 f_equal. lia.
    + rewrite Nat.add_0_r, set_Current_same. reflexivity.
Qed.

Lemma substr_run pos n st :
  (pos <= length (chars st))%nat ->
  substr pos n st
  = Ok (string_of_list_ascii (take n (drop pos (chars st))), st).
Proof.
  intros H. unfold substr. rewrite <- length_list_ascii. fold (chars st).
  destruct (Nat.ltb_spec (length (chars st)) pos); [lia |].
  rewrite substring_string. reflexivity.
Qed.

Ltac scanner_simpl :=
  unfold chars;
  cbn [m_Source m_Tokens m_Result m_Start m_Current
       set_Result set_Start set_Current].

Lemma AddValue_run (Multiplier Value : Z) (st : CScanner) :
  AddValue Multiplier Value st
  = Ok (tt, set_Result (add_value Multiplier Value (m_Result st)) st).
Proof.
  unfold AddValue, modify, add_value.
  destruct (m_Result st !! Multiplier); reflexivity.
Qed.

Lemma add_literal_run Tk Literal v st :
  m_Tokens st = Tk ->
  match Literal with
  | EmptyString => AddValue 60 v
  | _ => AddValue_Literal Literal v
  end st
  = Ok (tt, set_Result (add_literal Tk Literal v (m_Result st)) st).
Proof.
  intros <-. unfold add_literal, add_value.
  destruct Literal as [|a Literal].
  - unfold AddValue, modify. destruct (m_Result st !! 60); reflexivity.
  - unfold AddValue_Literal. rewrite bind_unfold. unfold gets.
    destruct (m_Tokens st !! String a Literal); [| destruct st; reflexivity].
    unfold AddValue, modify. destruct (m_Result st !! z); reflexivity.
Qed.

Lemma scan_step (fuel : nat) (st : CScanner) :
  (m_Current st < length (chars st))%nat ->
  (length (chars st) < fuel)%nat ->
  let i := m_Current st in
  let c := nth i (chars st) zero in
  let l' := drop (S i) (chars st) in
  let nd := span_len isdigit l' in
  let r1 := drop nd l' in
  let na := span_len isalpha r1 in
  (modify (fun s => set_Start (m_Current s) s) >> ScanToken fuel) st
  = if isdigit c then
      outcome_bind (stoll (string_of_list_ascii (c :: take nd l')))
        (fun v =>
           Ok (tt, mkCScanner (m_Source st) (m_Tokens st)
                     (add_literal (m_Tokens st)
                        (string_of_list_ascii (take na r1)) v (m_Result st))
                     i (S i + nd + na)))
    else Ok (tt, mkCScanner (m_Source st) (m_Tokens st) (m_Result st) i (S i)).
Proof.
  destruct st as [src Tk R s0 i]. scanner_simpl. cbn zeta.
  set (l := list_ascii_of_string src).
  intros Hlt Hfuel.
  set (c := nth i l zero). set (l' := drop (S i) l).
  set (nd := span_len isdigit l'). set (r1 := drop nd l').
  set (na := span_len isalpha r1).
  assert (Hnd : (nd <= length l')%nat) by apply span_len_le.
  assert (Hl' : length l' = (length l - S i)%nat) by (unfold l'; apply length_drop).
  assert (Hna : (na <= length r1)%nat) by apply span_len_le.
  assert (Hr1 : length r1 = (length l' - nd)%nat) by (unfold r1; apply length_drop).
  assert (Hdrop : drop (S i + nd) l = r1)
    by (unfold r1, l'; rewrite drop_drop; reflexivity).
  unfold ScanToken.
  rewrite bind_unfold. unfold modify at 1. scanner_simpl.
  rewrite bind_unfold. unfold Advance at 1. scanner_simpl.
  rewrite source_at_nth. fold l. fold c.
  destruct (isdigit c) eqn:Hc; [| reflexivity].
  rewrite bind_unfold.
  rewrite while_advance; [| reflexivity | scanner_simpl; fold l; lia].
  scanner_simpl. fold l. fold l'. fold nd.
  rewrite bind_unfold. unfold gets at 1. scanner_simpl.
  rewrite bind_unfold. unfold gets at 1. scanner_simpl.
  rewrite bind_unfold. rewrite substr_run by (scanner_simpl; fold l; lia).
  scanner_simpl. fold l.
  rewrite bind_unfold. unfold gets at 1. scanner_simpl.
  rewrite bind_unfold.
  rewrite while_advance; [| reflexivity | scanner_simpl; fold l; lia].
  scanner_simpl. fold l. rewrite Hdrop. fold na.
  rewrite bind_unfold. unfold gets at 1. scanner_simpl.
  rewrite bind_unfold. rewrite substr_run by (scanner_simpl; fold l; lia).
  scanner_simpl. fold l. rewrite Hdrop.
  replace (S i + nd - i)%nat with (S nd) by lia.
  replace (S i + nd + na - (S i + nd))%nat with na by lia.
  replace (take (S nd) (drop i l)) with (c :: take nd l')
    by (rewrite (drop_nth_cons l i Hlt); reflexivity).
  set (Value := string_of_list_ascii (c :: take nd l')).
  set (Literal := string_of_list_ascii (take na r1)).
  assert (Hfin : forall v,
    set_Result (add_literal Tk Literal v R)
      (set_Current (S i + nd + na)
         (set_Current (S i + nd)
            (set_Current (S i) (set_Start i (mkCScanner src Tk R s0 i)))))
    = mkCScanner src Tk (add_literal Tk Literal v R) i (S i + nd + na))
    by reflexivity.
  destruct Literal eqn:HL; rewrite bind_unfold; unfold lift;
    destruct (stoll Value) as [v | e |]; cbn [outcome_bind]; try reflexivity.
  - rewrite (add_literal_run Tk EmptyString) by reflexivity. rewrite Hfin.
    reflexivity.
  - rewrite (add_literal_run Tk (String a s)) by reflexivity. rewrite Hfin.
    reflexivity.
Qed.

Lemma ScanToken_run (fuel : nat) (st : CScanner) :
  m_Start st = m_Current st ->
  ScanToken fuel st
  = (modify (fun s => set_Start (m_Current s) s) >> ScanToken fuel) st.
Proof.
  intros H. rewrite bind_unfold. unfold modify. rewrite <- H.
  destruct st; reflexivity.
Qed.

Lemma scan_loop (fuel k : nat) (st : CScanner) :
  (length (chars st) < fuel)%nat ->
  (m_Current st <= length (chars st))%nat ->
  result_of
    (while_ k (let* e := AtEnd in ret (negb e))
       (modify (fun s => set_Start (m_Current s) s) >> ScanToken fuel) st)
  = scan_chars k (m_Tokens st) (drop (m_Current st) (chars st)) (m_Result st).
Proof.
  intros Hfuel. revert st Hfuel.
  induction k as [|k IH]; intros st Hfuel Hcur; [reflexivity |].
  rewrite while_unfold. rewrite bind_unfold. unfold AtEnd at 1, gets at 1, ret at 1.
  rewrite <- length_list_ascii. fold (chars st).
  destruct (Nat.leb_spec (length (chars st)) (m_Current st)) as [Hge | Hlt];
    cbn [negb].
  - rewrite drop_ge by lia. reflexivity.
  - rewrite (scan_step fuel st Hlt Hfuel). cbn zeta.
    rewrite (drop_nth_cons _ _ Hlt). cbn [scan_chars].
    destruct (isdigit (nth (m_Current st) (chars st) zero)).
    + destruct (stoll _) as [v | e |]; cbn [outcome_bind]; try reflexivity.
      rewrite IH.
      * unfold chars. cbn [m_Source m_Tokens m_Result m_Current].
        fold (chars st). rewrite !drop_drop.
        f_equal.
      * exact Hfuel.
      * unfold chars. cbn [m_Source m_Current]. fold (chars st).
        pose proof (span_len_le isdigit (drop (S (m_Current st)) (chars st))).
        pose proof (span_len_le isalpha
          (drop (span_len isdigit (drop (S (m_Current st)) (chars st)))
                (drop (S (m_Current st)) (chars st)))).
        rewrite !length_drop in *. lia.
    + rewrite IH.
      * reflexivity.
      * exact Hfuel.
      * unfold chars. cbn [m_Source m_Current]. fold (chars st). lia.
Qed.

(** ** The scanner on the characters that are left *)

Section ScanChars.

Variable Tk : gmap string Z.

Lemma scan_chars_fuel (k k' : nat) (l : list ascii) R :
  (length l < k)%nat -> (length l < k')%nat ->
  scan_chars k Tk l R = scan_chars k' Tk l R.
Proof.
  revert k' l R. induction k as [|k IH]; intros k' l R Hk Hk'; [lia |].
  destruct k' as [|k']; [lia |].
  destruct l as [|c l]; [reflexivity |].
  cbn [scan_chars]. simpl in Hk, Hk'.
  destruct (isdigit c).
  - destruct (stoll _) as [v | e |]; cbn [outcome_bind]; try reflexivity.
    apply IH; rewrite !length_drop; lia.
  - apply IH; lia.
Qed.

Lemma scan_chars_total (k : nat) (l : list ascii) R :
  (length l < k)%nat -> scan_chars k Tk l R <> OutOfFuel.
Proof.
  revert l R. induction k as [|k IH]; intros l R Hk; [lia |].
  destruct l as [|c l]; [discriminate |].
  cbn [scan_chars]. simpl in Hk.
  destruct (isdigit c).
  - destruct (stoll _) as [v | e |] eqn:Hs; cbn [outcome_bind];
      try discriminate.
    + apply IH. rewrite !length_drop. lia.
    + unfold stoll in Hs.
      destruct (string_of_list_ascii _); [discriminate |].
      destruct (NilEmpty.uint_of_string _); [| discriminate].
      destruct (_ <=? _); discriminate.
  - apply IH. lia.
Qed.

Lemma scan_chars_cons (k : nat) c (l : list ascii) R :
  scan_chars (S k) Tk (c :: l) R
  = if isdigit c then
      let nd := span_len isdigit l in
      let r1 := drop nd l in
      let na := span_len isalpha r1 in
      outcome_bind (stoll (string_of_list_ascii (c :: take nd l)))
        (fun v =>
           scan_chars k Tk (drop na r1)
             (add_literal Tk (string_of_list_ascii (take na r1)) v R))
    else scan_chars k Tk l R.
Proof. reflexivity. Qed.

Lemma scan_all_nil R : scan_all Tk [] R = Ok R.
Proof. reflexivity. Qed.

Lemma scan_all_cons c (l : list ascii) R :
  scan_all Tk (c :: l) R
  = if isdigit c then
      let nd := span_len isdigit l in
      let r1 := drop nd l in
      let na := span_len isalpha r1 in
      outcome_bind (stoll (string_of_list_ascii (c :: take nd l)))
        (fun v =>
           scan_all Tk (drop na r1)
             (add_literal Tk (string_of_list_ascii (take na r1)) v R))
    else scan_all Tk l R.
Proof.
  unfold scan_all. rewrite scan_chars_cons.
  destruct (isdigit c); [| reflexivity].
  cbn zeta. destruct (stoll _) as [v | e |]; cbn [outcome_bind];
    try reflexivity.
  apply scan_chars_fuel; rewrite !length_drop; simpl; lia.
Qed.

Lemma scan_all_skip c (l : list ascii) R :
  isdigit c = false -> scan_all Tk (c :: l) R = scan_all Tk l R.
Proof. intros H. rewrite scan_all_cons, H. reflexivity. Qed.

Lemma scan_all_token c (ds lit rest : list ascii) R :
  isdigit c = true ->
  forallb isdigit ds = true ->
  forallb isalpha lit = true ->
  starts_with isalpha rest = false ->
  starts_with isdigit (lit ++ rest) = false ->
  scan_all Tk (c :: ds ++ lit ++ rest) R
  = outcome_bind (stoll (string_of_list_ascii (c :: ds)))
      (fun v => scan_all Tk rest
                  (add_literal Tk (string_of_list_ascii lit) v R)).
Proof.
  intros Hc Hds Hlit Hrest Hnext.
  rewrite scan_all_cons, Hc. cbn zeta.
  rewrite (span_len_app isdigit ds _ Hds), (span_len_stop isdigit _ Hnext).
  rewrite Nat.add_0_r.
  rewrite take_app_length, drop_app_length.
  rewrite (span_len_app isalpha lit _ Hlit), (span_len_stop isalpha _ Hrest).
  rewrite Nat.add_0_r.
  rewrite take_app_length, drop_app_length. reflexivity.
Qed.

Lemma add_literal_unknown (lit : list ascii) (v : Z) (R : gmap Z Z) :
  lit <> [] ->
  Tk !! string_of_list_ascii lit = None ->
  add_literal Tk (string_of_list_ascii lit) v R = R.
Proof.
  intros Hne Hlit. unfold add_literal. rewrite Hlit.
  destruct lit; [congruence | reflexivity].
Qed.

Lemma scan_all_app_aux (n : nat) :
  forall (pre suf : list ascii) (R : gmap Z Z),
    (length pre <= n)%nat ->
    ends_clean pre ->
    starts_with isalpha suf = false ->
    scan_all Tk (pre ++ suf) R
    = outcome_bind (scan_all Tk pre R) (scan_all Tk suf).
Proof.
  induction n as [|n IH]; intros pre suf R Hlen Hclean Hsuf.
  - destruct pre; [reflexivity | simpl in Hlen; lia].
  - destruct pre as [|c pre]; [reflexivity |].
    simpl in Hlen. change ((c :: pre) ++ suf) with (c :: pre ++ suf).
    rewrite !scan_all_cons. destruct (isdigit c) eqn:Hc.
    + cbn zeta.
      assert (Hpre : exists c', last pre = Some c' /\ isdigit c' = false).
      { unfold ends_clean in Hclean. destruct pre as [|c1 pre].
        - simpl in Hclean. congruence.
        - change (last (c :: c1 :: pre)) with (last (c1 :: pre)) in Hclean.
          destruct (last (c1 :: pre)) as [c'|] eqn:Hl; [eauto |].
          apply last_None in Hl. discriminate. }
      destruct Hpre as (c' & Hlast & Hc').
      rewrite (span_len_app_last isdigit pre suf c' Hlast Hc').
      set (nd := span_len isdigit pre).
      assert (Hnd : (nd <= length pre)%nat) by apply span_len_le.
      rewrite take_app_le, drop_app_le by exact Hnd.
      rewrite (span_len_app_stop isalpha _ suf Hsuf).
      set (r1 := drop nd pre). set (na := span_len isalpha r1).
      assert (Hna : (na <= length r1)%nat) by apply span_len_le.
      rewrite take_app_le, drop_app_le by exact Hna.
      destruct (stoll _) as [v | e |]; cbn [outcome_bind]; try reflexivity.
      apply IH; [| | exact Hsuf].
      * unfold r1. rewrite !length_drop. lia.
      * unfold r1. apply ends_clean_drop, ends_clean_drop.
        unfold ends_clean. rewrite Hlast. exact Hc'.
    + apply IH; [lia | | exact Hsuf].
      unfold ends_clean in *. destruct pre as [|c1 pre]; [exact I | exact Hclean].
Qed.

(** The scanner handles a text in two parts when no token lies across the
    cut. *)
Lemma scan_all_app (pre suf : list ascii) (R : gmap Z Z) :
  ends_clean pre ->
  starts_with isalpha suf = false ->
  scan_all Tk (pre ++ suf) R
  = outcome_bind (scan_all Tk pre R) (scan_all Tk suf).
Proof. apply (scan_all_app_aux (length pre)). lia. Qed.

End ScanChars.

(** ** [Parse] through the scanner on lists *)

Lemma ScanTokens_scan_all (src : string) Tk :
  outcome_map fst (ScanTokens (S (String.length src)) (CScanner_new src Tk))
  = scan_all Tk (list_ascii_of_string src) ∅.
Proof.
  pose proof (scan_loop (S (String.length src)) (S (String.length src))
                (CScanner_new src Tk)) as H.
  unfold chars in H. cbn [CScanner_new m_Source m_Current m_Tokens m_Result] in H.
  rewrite length_list_ascii in H.
  specialize (H ltac:(lia) ltac:(lia)). rewrite drop_0 in H.
  unfold scan_all. rewrite length_list_ascii. rewrite <- H.
  unfold ScanTokens. rewrite bind_unfold.
  destruct (while_ _ _ _ _) as [[[] s'] | e |]; reflexivity.
Qed.

Lemma Parse_scan_all (from : string) :
  Parse from
  = outcome_map total_of (scan_all unit_table (list_ascii_of_string from) ∅).
Proof.
  unfold Parse. rewrite <- ScanTokens_scan_all.
  destruct (ScanTokens _ _) as [[r s'] | e |]; reflexivity.
Qed.

(** [Parse] returns or throws: its loops never run out of the fuel that
    the length of the text gives them. *)
Lemma Parse_total (from : string) : Parse from <> OutOfFuel.
Proof.
  rewrite Parse_scan_all. unfold scan_all.
  pose proof (scan_chars_total unit_table
                (S (length (list_ascii_of_string from)))
                (list_ascii_of_string from) ∅ ltac:(lia)) as H.
  destruct (scan_chars _ _ _ _); [discriminate | discriminate | congruence].
Qed.

(** ** Normalization and the constructors *)

Lemma constructed_Validate (p : CTimePeriod) :
  constructed p -> p = Validate (with_TotalDuration (duration p)).
Proof.
  intros [s m h d _ _ _ _ | from p' Hp | T _]; try reflexivity.
  unfold CTimePeriod_string in Hp.
  destruct (Parse from) as [T | e |]; cbn [outcome_bind] in Hp;
    [| discriminate ..].
  injection Hp as <-. reflexivity.
Qed.

(** The identity of truncating division, for any total. *)
Lemma Validate_sum (T : Z) :
  let p := Validate (with_TotalDuration T) in
  days p * 86400 + hours p * 3600 + minutes p * 60 + seconds p = T.
Proof.
  cbn. pose proof (Z.quot_rem' T 86400).
  pose proof (Z.quot_rem' (Z.rem T 86400) 3600).
  pose proof (Z.quot_rem' (Z.rem (Z.rem T 86400) 3600) 60). lia.
Qed.

Lemma Validate_bounds (T : Z) :
  0 <= T ->
  let p := Validate (with_TotalDuration T) in
  0 <= hours p < 24 /\ 0 <= minutes p < 60 /\ 0 <= seconds p < 60
  /\ 0 <= days p.
Proof.
  intros HT. cbn.
  pose proof (Z.rem_bound_pos T 86400 HT ltac:(lia)) as H1.
  pose proof (Z.rem_bound_pos (Z.rem T 86400) 3600 ltac:(lia) ltac:(lia)) as H2.
  pose proof (Z.rem_bound_pos (Z.rem (Z.rem T 86400) 3600) 60
                ltac:(lia) ltac:(lia)) as H3.
  repeat split; try lia.
  - apply Z.quot_pos; lia.
  - apply Z.quot_lt_upper_bound; lia.
  - apply Z.quot_pos; lia.
  - apply Z.quot_lt_upper_bound; lia.
  - apply Z.quot_pos; lia.
Qed.

(** C3: for every value built by one of the three constructors whose total
    is not negative, the components add up to the total,
    [days*86400 + hours*3600 + minutes*60 + seconds = duration], with
    [0 <= hours < 24], [0 <= minutes < 60], [0 <= seconds < 60] and
    [0 <= days]. *)
Theorem Validate_invariant (p : CTimePeriod) :
  constructed p ->
  0 <= duration p ->
  days p * 86400 + hours p * 3600 + minutes p * 60 + seconds p = duration p
  /\ 0 <= hours p < 24 /\ 0 <= minutes p < 60 /\ 0 <= seconds p < 60
  /\ 0 <= days p.
Proof.
  intros Hc HT.
  pose proof (Validate_sum (duration p)) as Hs.
  pose proof (Validate_bounds (duration p) HT) as Hb.
  cbv zeta in Hs, Hb. rewrite <- (constructed_Validate p Hc) in Hs, Hb.
  split; assumption.
Qed.

Lemma Validate_invariant_witness :
  (constructed (CTimePeriod_components 4 3 2 1)
   /\ days (CTimePeriod_components 4 3 2 1) * 86400
      + hours (CTimePeriod_components 4 3 2 1) * 3600
      + minutes (CTimePeriod_components 4 3 2 1) * 60
      + seconds (CTimePeriod_components 4 3 2 1)
      = duration (CTimePeriod_components 4 3 2 1))
  /\ (CTimePeriod_string "1d 2h 3m 4s" = Ok (mkCTimePeriod 93784 1 2 3 4)
      /\ 0 <= hours (mkCTimePeriod 93784 1 2 3 4) < 24)
  /\ (constructed (CTimePeriod_duration 5400)
      /\ 0 <= minutes (CTimePeriod_duration 5400) < 60).
Proof.
  assert (H1 : constructed (CTimePeriod_components 4 3 2 1))
    by (apply constructed_components;
        unfold in_int64, INT64_MIN, INT64_MAX; lia).
  assert (H2 : CTimePeriod_string "1d 2h 3m 4s"
               = Ok (mkCTimePeriod 93784 1 2 3 4))
    by (vm_compute; reflexivity).
  assert (H3 : constructed (CTimePeriod_duration 5400))
    by (apply constructed_duration;
        unfold in_int64, INT64_MIN, INT64_MAX; lia).
  split; [| split]; (split; [assumption |]).
  - apply (Validate_invariant (CTimePeriod_components 4 3 2 1) H1).
    vm_compute. discriminate.
  - apply (Validate_invariant (mkCTimePeriod 93784 1 2 3 4)
             (constructed_string "1d 2h 3m 4s" _ H2)).
    vm_compute. discriminate.
  - apply (Validate_invariant (CTimePeriod_duration 5400) H3).
    vm_compute. discriminate.
Defined.

(** C10: for every total [T], negative ones included, the components of the
    value built from [T] add up to [T]; the bounds of the components are
    lost below zero, where the components take the sign of [T]. *)
Theorem Validate_sum_any_sign :
  (forall T : Z,
     let p := CTimePeriod_duration T in
     days p * 86400 + hours p * 3600 + minutes p * 60 + seconds p = T)
  /\ (let p := CTimePeriod_duration (-90061) in
      days p = -1 /\ hours p = -1 /\ minutes p = -1 /\ seconds p = -1).
Proof.
  split.
  - intros T. apply Validate_sum.
  - vm_compute. repeat split.
Qed.

(** ** Comparison *)

(** C4: between constructed values, [==] holds exactly when the totals are
    equal and [<] exactly when the totals are in that order; the three-way
    comparison is the one of the totals. *)
Theorem comparison_by_total (a b : CTimePeriod) :
  constructed a ->
  constructed b ->
  (operator_eq a b = true <-> duration a = duration b)
  /\ (operator_lt a b = true <-> duration a < duration b)
  /\ spaceship a b = (duration a ?= duration b).
Proof.
  intros Ha Hb.
  rewrite (constructed_Validate a Ha), (constructed_Validate b Hb).
  generalize (duration a) (duration b). clear. intros x y.
  unfold duration, operator_eq, operator_lt, spaceship, Validate,
    with_TotalDuration.
  cbn [m_TotalDuration m_Days m_Hours m_Minutes m_Seconds].
  destruct (Z.compare_spec x y) as [-> | Hlt | Hgt]; cbn [lex].
  - rewrite !Z.eqb_refl, !Z.compare_refl. cbn.
    repeat split; try reflexivity; try discriminate; lia.
  - destruct (Z.eqb_spec x y); [lia |]. cbn.
    repeat split; try reflexivity; try discriminate; try lia.
  - destruct (Z.eqb_spec x y); [lia |]. cbn.
    repeat split; try reflexivity; try discriminate; try lia.
Qed.

Lemma comparison_by_total_witness :
  constructed (CTimePeriod_components 60 0 0 0)
  /\ constructed (CTimePeriod_components 0 1 0 0)
  /\ operator_eq (CTimePeriod_components 60 0 0 0)
       (CTimePeriod_components 0 1 0 0) = true
  /\ operator_lt (CTimePeriod_components 59 0 0 0)
       (CTimePeriod_duration 60) = true.
Proof.
  assert (Hc : forall s m, -100 <= s <= 100 -> -100 <= m <= 100 ->
                           constructed (CTimePeriod_components s m 0 0))
    by (intros; apply constructed_components;
        unfold in_int64, INT64_MIN, INT64_MAX; lia).
  assert (Hd : constructed (CTimePeriod_duration 60))
    by (apply constructed_duration;
        unfold in_int64, INT64_MIN, INT64_MAX; lia).
  split; [apply Hc; lia |]. split; [apply Hc; lia |]. split.
  - apply (comparison_by_total (CTimePeriod_components 60 0 0 0)
             (CTimePeriod_components 0 1 0 0)); [apply Hc; lia .. |].
    vm_compute. reflexivity.
  - apply (comparison_by_total (CTimePeriod_components 59 0 0 0)
             (CTimePeriod_duration 60)); [apply Hc; lia | exact Hd |].
    vm_compute. reflexivity.
Defined.

(** ** Formatting *)

(** [toString] as the concatenation of its four components. *)
Lemma toString_components (p : CTimePeriod) :
  toString p
  = component (m_Days p) "d "
    +:+ component (m_Hours p) "h "
    +:+ component (m_Minutes p) "m "
    +:+ (if (0 <? m_Seconds p)
            || negb (0 <? m_Days p) && negb (0 <? m_Hours p)
               && negb (0 <? m_Minutes p)
         then format_int (m_Seconds p) +:+ "s" else EmptyString).
Proof.
  unfold toString, component.
  destruct (0 <? m_Days p), (0 <? m_Hours p), (0 <? m_Minutes p);
    cbn [negb andb orb]; rewrite ?orb_false_r, ?orb_true_r;
    change ("" +:+ ?s) with s; rewrite ?string_empty_app;
    cbn [string_empty]; rewrite ?andb_false_r, ?orb_false_r;
    destruct (0 <? m_Seconds p);
    rewrite ?string_app_nil_r, ?string_app_assoc;
    change ("" +:+ ?s) with s; reflexivity.
Qed.

(** When the seconds are not printed, the text ends in the space that
    follows the last component printed. *)
Lemma toString_trailing_space (p : CTimePeriod) :
  m_Seconds p <= 0 ->
  0 < m_Days p \/ 0 < m_Hours p \/ 0 < m_Minutes p ->
  exists s : string, toString p = s +:+ " ".
Proof.
  intros Hs Hsome. rewrite toString_components. unfold component.
  destruct (Z.ltb_spec 0 (m_Seconds p)) as [|_]; [lia |].
  destruct (Z.ltb_spec 0 (m_Days p)) as [Hd | Hd];
    destruct (Z.ltb_spec 0 (m_Hours p)) as [Hh | Hh];
    destruct (Z.ltb_spec 0 (m_Minutes p)) as [Hm | Hm];
    cbn [negb andb orb]; try lia;
    change "d "%string with ("d" +:+ " ");
    change "h "%string with ("h" +:+ " ");
    change "m "%string with ("m" +:+ " ");
    change ("" +:+ ?s)%string with s;
    rewrite ?string_app_nil_r, <- ?string_app_assoc;
    eexists; reflexivity.
Qed.

(** C1: 90 minutes, a total of 5400 seconds.  [toString] emits ["1h "] and
    ["30m "] and, the seconds being zero, nothing more: the text ends in the
    space that follows the minutes and is not ["1h 30m"]. *)
Theorem toString_90_minutes :
  toString (CTimePeriod_duration 5400) = "1h 30m "%string
  /\ toString (CTimePeriod_duration 5400) <> "1h 30m"%string
  /\ toString (CTimePeriod_duration 0) = "0s"%string
  /\ toString (CTimePeriod_duration 93784) = "1d 2h 3m 4s"%string.
Proof. vm_compute. repeat split. discriminate. Qed.

(** C9: [asSqlInterval] is the word [interval], the decimal numeral of the
    raw total and the word [second], in the singular for every total: 90
    seconds give ["interval 90 second"], and a total of more than a day is
    printed as it is, not split into components. *)
Theorem asSqlInterval_format :
  (forall p : CTimePeriod,
     exists N : string,
       asSqlInterval p = "interval " +:+ N +:+ " second"
       /\ option_map Z.of_int (NilZero.int_of_string N) = Some (duration p))
  /\ asSqlInterval (CTimePeriod_components 90 0 0 0)
     = "interval 90 second"%string
  /\ asSqlInterval (CTimePeriod_duration 1) = "interval 1 second"%string
  /\ asSqlInterval (CTimePeriod_duration 93784)
     = "interval 93784 second"%string.
Proof.
  split.
  - intros p. exists (format_int (m_TotalDuration p)).
    split; [reflexivity | apply format_int_reads_back].
  - vm_compute. repeat split.
Qed.

(** ** Tokens *)

(** C2: the two tokens of ["1h 2h"] are one hour and two hours; the parse
    adds them up to three hours, 10800 seconds. *)
Theorem Parse_1h_2h : Parse "1h 2h" = Ok 10800.
Proof. vm_compute. reflexivity. Qed.

Lemma Parse_1h_2h_not_7200 : Parse "1h 2h" <> Ok 7200.
Proof. vm_compute. discriminate. Qed.

(** A token that is a run of digits alone, followed by the end of the
    source or by a character that is neither a digit nor a letter, is
    handled as [AddValue(60, std::stoll(digits))], the exception of the
    conversion included. *)
Lemma ScanToken_digits_only (fuel : nat) (st : CScanner)
    (ds rest : list ascii) :
  m_Start st = m_Current st ->
  drop (m_Current st) (chars st) = ds ++ rest ->
  ds <> [] ->
  forallb isdigit ds = true ->
  starts_with isdigit rest = false ->
  starts_with isalpha rest = false ->
  (length (chars st) < fuel)%nat ->
  ScanToken fuel st
  = (let* v := lift (stoll (string_of_list_ascii ds)) in AddValue 60 v)
      (set_Current (m_Current st + length ds) st)
  /\ Parse "90" = Ok 5400.
Proof.
  intros Hstart Hdrop Hne Hds Hdig Halpha Hfuel.
  split; [| vm_compute; reflexivity].
  destruct ds as [|c ds]; [congruence |]. clear Hne.
  cbn [forallb] in Hds. apply andb_true_iff in Hds as [Hc Hds].
  assert (Hlt : (m_Current st < length (chars st))%nat).
  { destruct (Nat.lt_ge_cases (m_Current st) (length (chars st))) as [|Hge];
      [assumption |].
    rewrite drop_ge in Hdrop by exact Hge. discriminate. }
  rewrite (drop_nth_cons _ _ Hlt) in Hdrop.
  change ((c :: ds) ++ rest) with (c :: (ds ++ rest)) in Hdrop.
  injection Hdrop as Hc0 Hrest.
  rewrite (ScanToken_run fuel st Hstart), (scan_step fuel st Hlt Hfuel).
  cbv zeta. rewrite Hc0, Hc, Hrest.
  rewrite (span_len_app isdigit ds rest Hds), (span_len_stop isdigit rest Hdig).
  rewrite Nat.add_0_r, take_app_length, drop_app_length.
  rewrite (span_len_stop isalpha rest Halpha), take_0.
  rewrite bind_unfold. unfold lift.
  destruct (stoll _) as [v | e |]; cbn [outcome_bind]; try reflexivity.
  cbn [string_of_list_ascii add_literal].
  rewrite AddValue_run. do 2 f_equal.
  destruct st as [src Tk R s0 i]; cbn in *. subst s0.
  unfold set_Result, set_Current. cbn. f_equal. lia.
Qed.

(** C5: a run of digits that fits 64 bits, followed by the end of the
    source or by a character that is neither a digit nor a letter, is
    accumulated under the multiplier 60: [ScanToken] is the call
    [AddValue(60, value)] at the position after the run, the entry of 60
    holds the value, added to what it held before, and no other entry
    changes.  So [Parse "90"] is 5400. *)
Theorem ScanToken_bare_number (fuel : nat) (st : CScanner)
    (ds rest : list ascii) (v : Z) :
  m_Start st = m_Current st ->
  drop (m_Current st) (chars st) = ds ++ rest ->
  ds <> [] ->
  forallb isdigit ds = true ->
  starts_with isdigit rest = false ->
  starts_with isalpha rest = false ->
  stoll (string_of_list_ascii ds) = Ok v ->
  (length (chars st) < fuel)%nat ->
  ScanToken fuel st
  = AddValue 60 v (set_Current (m_Current st + length ds) st)
  /\ (exists st',
        ScanToken fuel st = Ok (tt, st')
        /\ m_Result st' !! 60
           = Some (match m_Result st !! 60 with
                   | Some old => add64 old v
                   | None => v
                   end)
        /\ (forall k, k <> 60 -> m_Result st' !! k = m_Result st !! k)
        /\ m_Current st' = (m_Current st + length ds)%nat)
  /\ Parse "90" = Ok 5400.
Proof.
  intros Hstart Hdrop Hne Hds Hdig Halpha Hv Hfuel.
  destruct (ScanToken_digits_only fuel st ds rest
              Hstart Hdrop Hne Hds Hdig Halpha Hfuel) as [Hrun Hparse].
  rewrite bind_unfold in Hrun. unfold lift in Hrun. rewrite Hv in Hrun.
  cbn [outcome_bind] in Hrun.
  split; [exact Hrun |]. split; [| exact Hparse].
  rewrite Hrun, AddValue_run. eexists. split; [reflexivity |].
  cbn [m_Result m_Current set_Result set_Current]. unfold add_value.
  destruct (m_Result st !! 60) as [old |]; repeat split;
    try apply lookup_insert_eq;
    intros k Hk; apply lookup_insert_ne; congruence.
Qed.

Lemma ScanToken_bare_number_witness :
  ScanToken 3 (CScanner_new "90" unit_table)
  = AddValue 60 90 (set_Current 2 (CScanner_new "90" unit_table))
  /\ ScanToken 3 (CScanner_new "90" unit_table)
     = Ok (tt, mkCScanner "90" unit_table {[ 60 := 90 ]} 0 2)
  /\ Parse "90" = Ok 5400.
Proof.
  destruct (ScanToken_bare_number 3 (CScanner_new "90" unit_table)
              ["9"%char; "0"%char] [] 90) as (Hrun & _ & Hparse);
    try reflexivity.
  - discriminate.
  - simpl. lia.
  - split; [exact Hrun |]. split; [| exact Hparse].
    vm_compute. reflexivity.
Defined.

(** Without the bound on the digits the statement fails: a run of twenty
    nines, alone in the source, is a token without a literal, and the
    conversion throws before anything is accumulated. *)
Lemma bare_number_overflow :
  ScanToken 21 (CScanner_new "99999999999999999999" unit_table)
  = Throw out_of_range
  /\ Parse "99999999999999999999" = Throw out_of_range.
Proof. vm_compute. split; reflexivity. Qed.

(** C7: [AddValue] on a multiplier that already has a value puts the 64-bit
    sum of the old value and the new one there, the exact sum when it is
    in range, and leaves the rest of the scanner as it was; the two tokens
    of ["1h 2h"] leave the single entry of 3 under 3600. *)
Theorem AddValue_accumulates (st : CScanner) (Multiplier Value old : Z) :
  m_Result st !! Multiplier = Some old ->
  (exists st',
     AddValue Multiplier Value st = Ok (tt, st')
     /\ m_Result st' !! Multiplier = Some (add64 old Value)
     /\ (in_int64 (old + Value) -> m_Result st' !! Multiplier = Some (old + Value))
     /\ (forall k, k <> Multiplier -> m_Result st' !! k = m_Result st !! k)
     /\ m_Source st' = m_Source st /\ m_Tokens st' = m_Tokens st
     /\ m_Start st' = m_Start st /\ m_Current st' = m_Current st)
  /\ outcome_map fst (ScanTokens 6 (CScanner_new "1h 2h" unit_table))
     = Ok {[ 3600 := 3 ]}.
Proof.
  intros Hold. split; [| vm_compute; reflexivity].
  eexists. split; [apply AddValue_run |].
  unfold add_value. rewrite Hold. cbn [m_Result set_Result m_Source m_Tokens
                                        m_Start m_Current].
  repeat split.
  - apply lookup_insert_eq.
  - intros Hr. rewrite lookup_insert_eq. unfold add64.
    rewrite (wrap64_id _ Hr). reflexivity.
  - intros k Hk. apply lookup_insert_ne. congruence.
Qed.

Lemma AddValue_accumulates_witness :
  exists st',
    AddValue 3600 2 (mkCScanner "1h 2h" unit_table {[ 3600 := 1 ]} 3 5)
    = Ok (tt, st')
    /\ m_Result st' !! 3600 = Some 3.
Proof.
  destruct (AddValue_accumulates
              (mkCScanner "1h 2h" unit_table {[ 3600 := 1 ]} 3 5) 3600 2 1)
    as [(st' & Hrun & Hsum & _) _].
  - vm_compute. reflexivity.
  - exists st'. split; [exact Hrun | exact Hsum].
Defined.

(** C6: a token whose digits fit 64 bits and whose letters are not a
    literal of the unit table is dropped.  [AddValue] with that literal
    returns without a change to the scanner, and [Parse] gives what it gives
    for the text without the token, error or value.  The token is [ds]
    followed by [lit]; it starts a token because [pre] does not end in a
    digit, and ends where [rest] starts because that is not a letter. *)
Theorem unknown_unit_dropped (pre ds lit rest : list ascii) (v : Z)
    (st : CScanner) :
  ends_clean pre ->
  ds <> [] -> forallb isdigit ds = true ->
  lit <> [] -> forallb isalpha lit = true ->
  starts_with isalpha rest = false ->
  unit_table !! string_of_list_ascii lit = None ->
  stoll (string_of_list_ascii ds) = Ok v ->
  m_Tokens st = unit_table ->
  AddValue_Literal (string_of_list_ascii lit) v st = Ok (tt, st)
  /\ Parse (string_of_list_ascii (pre ++ ds ++ lit ++ rest))
     = Parse (string_of_list_ascii (pre ++ rest)).
Proof.
  intros Hpre Hne Hds Hlne Hlit Hrest Hunknown Hv Htokens. split.
  - unfold AddValue_Literal. rewrite bind_unfold. unfold gets.
    rewrite Htokens, Hunknown. reflexivity.
  - rewrite !Parse_scan_all, !list_ascii_of_string_of_list_ascii.
    destruct ds as [|c ds]; [congruence |].
    cbn [forallb] in Hds. apply andb_true_iff in Hds as [Hc Hds].
    destruct lit as [|a lit]; [congruence |].
    assert (Ha : isalpha a = true)
      by (cbn [forallb] in Hlit; apply andb_true_iff in Hlit; tauto).
    rewrite (scan_all_app unit_table pre _ ∅ Hpre)
      by (cbn; apply isdigit_not_alpha, Hc).
    rewrite (scan_all_app unit_table pre rest ∅ Hpre Hrest).
    destruct (scan_all unit_table pre ∅) as [R | e |]; cbn [outcome_bind];
      try reflexivity.
    change ((c :: ds) ++ (a :: lit) ++ rest)
      with (c :: ds ++ (a :: lit) ++ rest).
    rewrite scan_all_token; try assumption.
    + rewrite Hv. cbn [outcome_bind].
      rewrite add_literal_unknown by (assumption || discriminate).
      reflexivity.
    + cbn. apply isalpha_not_digit, Ha.
Qed.

Lemma unknown_unit_dropped_witness :
  AddValue_Literal "x" 5 (CScanner_new "1h 5x 2m" unit_table)
  = Ok (tt, CScanner_new "1h 5x 2m" unit_table)
  /\ Parse "1h 5x 2m" = Parse "1h  2m".
Proof.
  apply (unknown_unit_dropped
           (list_ascii_of_string "1h ") (list_ascii_of_string "5")
           (list_ascii_of_string "x") (list_ascii_of_string " 2m") 5
           (CScanner_new "1h 5x 2m" unit_table));
    try reflexivity; try discriminate.
Defined.

(** Without the bound on the digits the statement fails: the digits of the
    token are converted before the literal is looked up, and the conversion
    throws when they do not fit 64 bits. *)
Lemma unknown_unit_overflow :
  unit_table !! "x"%string = None
  /\ Parse "99999999999999999999x" = Throw out_of_range
  /\ Parse "" = Ok 0
  /\ Parse "99999999999999999999x" <> Parse "".
Proof. vm_compute. repeat split. discriminate. Qed.

(** ** Printing, then parsing *)

(** Scanning a number printed by [std::format] and a unit letter of the
    table, followed by the end of the text or by something that is not a
    letter: one call of [AddValue] with that number. *)
Lemma scan_all_printed (n mult : Z) (u : ascii) (rest : list ascii)
    (R : gmap Z Z) :
  0 <= n <= INT64_MAX ->
  isalpha u = true ->
  unit_table !! String u EmptyString = Some mult ->
  starts_with isalpha rest = false ->
  scan_all unit_table (list_ascii_of_string (format_int n) ++ u :: rest) R
  = scan_all unit_table rest (add_value mult n R).
Proof.
  intros Hn Hu Hmult Hrest.
  destruct (format_int_digits n (proj1 Hn)) as (c & ds & Hfmt & Hc & Hds).
  rewrite Hfmt.
  change ((c :: ds) ++ u :: rest) with (c :: ds ++ [u] ++ rest).
  rewrite scan_all_token; try assumption.
  - rewrite <- Hfmt, string_of_list_ascii_of_string, stoll_format_int by exact Hn.
    cbn [outcome_bind]. unfold add_literal. cbn [string_of_list_ascii].
    rewrite Hmult. reflexivity.
  - cbn. rewrite Hu. reflexivity.
  - cbn. apply isalpha_not_digit. exact Hu.
Qed.

Lemma scan_all_component (n mult : Z) (u : ascii) (rest : list ascii)
    (R : gmap Z Z) :
  0 <= n <= INT64_MAX ->
  isalpha u = true ->
  unit_table !! String u EmptyString = Some mult ->
  exists R',
    scan_all unit_table
      (list_ascii_of_string (component n (String u " ")) ++ rest) R
    = scan_all unit_table rest R'
    /\ total_of R' = add64 (total_of R) (mul64 mult n).
Proof.
  intros Hn Hu Hmult. unfold component.
  destruct (Z.ltb_spec 0 n) as [Hpos | Hzero].
  - exists (add_value mult n R). split; [| apply total_of_add_value].
    rewrite list_ascii_app. cbn [list_ascii_of_string].
    rewrite <- app_assoc. cbn [app].
    rewrite (scan_all_printed n mult u _ R) by (try assumption; reflexivity).
    apply scan_all_skip. reflexivity.
  - exists R. split; [reflexivity |].
    replace n with 0 by lia. unfold mul64, add64.
    rewrite Z.mul_0_r. change (wrap64 0) with 0. rewrite Z.add_0_r.
    symmetry. apply wrap64_id, total_of_range.
Qed.

(** Round trip on the level of the characters: scanning what [toString]
    printed for a normalized value gives its total back. *)
Lemma Parse_toString (T : Z) :
  0 <= T <= INT64_MAX ->
  Parse (toString (CTimePeriod_duration T)) = Ok T.
Proof.
  intros HT. rewrite Parse_scan_all, toString_components.
  unfold CTimePeriod_duration, Validate, with_TotalDuration.
  cbn [m_TotalDuration m_Days m_Hours m_Minutes m_Seconds].
  set (D := T ÷ 86400). set (T1 := Z.rem T 86400).
  set (H := T1 ÷ 3600). set (T2 := Z.rem T1 3600).
  set (Mi := T2 ÷ 60). set (S := Z.rem T2 60).
  assert (HD : 0 <= D <= INT64_MAX /\ 0 <= T1 < 86400 /\ T = 86400 * D + T1).
  { unfold D, T1. pose proof (Z.quot_rem' T 86400).
    pose proof (Z.rem_bound_pos T 86400 ltac:(lia) ltac:(lia)).
    pose proof (Z.quot_pos T 86400 ltac:(lia) ltac:(lia)).
    unfold INT64_MAX in *. lia. }
  assert (HH : 0 <= H <= INT64_MAX /\ 0 <= T2 < 3600 /\ T1 = 3600 * H + T2).
  { unfold H, T2. pose proof (Z.quot_rem' T1 3600).
    pose proof (Z.rem_bound_pos T1 3600 ltac:(lia) ltac:(lia)).
    pose proof (Z.quot_pos T1 3600 ltac:(lia) ltac:(lia)).
    unfold INT64_MAX in *. lia. }
  assert (HM : 0 <= Mi <= INT64_MAX /\ 0 <= S < 60 /\ T2 = 60 * Mi + S).
  { unfold Mi, S. pose proof (Z.quot_rem' T2 60).
    pose proof (Z.rem_bound_pos T2 60 ltac:(lia) ltac:(lia)).
    pose proof (Z.quot_pos T2 60 ltac:(lia) ltac:(lia)).
    unfold INT64_MAX in *. lia. }
  clearbody D T1 H T2 Mi S.
  set (last := if (0 <? S)
                  || negb (0 <? D) && negb (0 <? H) && negb (0 <? Mi)
               then format_int S +:+ "s" else EmptyString).
  rewrite !list_ascii_app.
  destruct (scan_all_component D 86400 "d"
              (list_ascii_of_string (component H "h ")
               ++ list_ascii_of_string (component Mi "m ")
               ++ list_ascii_of_string last) ∅)
    as (R1 & -> & HR1); [lia | reflexivity | reflexivity |].
  destruct (scan_all_component H 3600 "h"
              (list_ascii_of_string (component Mi "m ")
               ++ list_ascii_of_string last) R1)
    as (R2 & -> & HR2); [lia | reflexivity | reflexivity |].
  destruct (scan_all_component Mi 60 "m" (list_ascii_of_string last) R2)
    as (R3 & -> & HR3); [lia | reflexivity | reflexivity |].
  subst last.
  assert (Htot : total_of R3 = wrap64 (86400 * D + 3600 * H + 60 * Mi)).
  { rewrite HR3, HR2, HR1, total_of_empty. wrap64_ring. }
  assert (HTid : wrap64 T = T)
    by (apply wrap64_id; unfold in_int64, INT64_MIN, INT64_MAX in *; lia).
  destruct ((0 <? S) || negb (0 <? D) && negb (0 <? H) && negb (0 <? Mi))
    eqn:Hlast.
  - rewrite list_ascii_app. cbn [list_ascii_of_string].
    rewrite (scan_all_printed S 1 "s" [] R3);
      [| unfold INT64_MAX in *; lia | reflexivity | reflexivity | reflexivity].
    rewrite scan_all_nil. unfold outcome_map. cbn [outcome_bind].
    rewrite total_of_add_value, Htot. f_equal.
    rewrite <- HTid.
    destruct HD as (_ & _ & ->), HH as (_ & _ & ->), HM as (_ & _ & ->).
    wrap64_ring.
  - apply orb_false_iff in Hlast as [HS _].
    apply Z.ltb_ge in HS.
    cbn [list_ascii_of_string]. rewrite scan_all_nil.
    unfold outcome_map. cbn [outcome_bind]. rewrite Htot. f_equal.
    rewrite <- HTid. f_equal. lia.
Qed.

(** C8: for a total [T] that is not negative, parsing the text that
    [toString] prints for the value of total [T] gives [T] back, and the
    value built from that text is the value one started from. *)
Theorem toString_Parse_roundtrip (T : Z) :
  0 <= T <= INT64_MAX ->
  Parse (toString (CTimePeriod_duration T)) = Ok T
  /\ outcome_map duration
       (CTimePeriod_string (toString (CTimePeriod_duration T))) = Ok T
  /\ ParseFactory (toString (CTimePeriod_duration T))
     = Ok (CTimePeriod_duration T).
Proof.
  intros HT. pose proof (Parse_toString T HT) as H.
  unfold CTimePeriod_string, ParseFactory. rewrite H. repeat split.
Qed.

Lemma toString_Parse_roundtrip_witness :
  Parse (toString (CTimePeriod_duration 5400)) = Ok 5400
  /\ outcome_map duration
       (CTimePeriod_string (toString (CTimePeriod_duration 5400))) = Ok 5400
  /\ ParseFactory (toString (CTimePeriod_duration 5400))
     = Ok (CTimePeriod_duration 5400).
Proof.
  apply (toString_Parse_roundtrip 5400). unfold INT64_MAX. lia.
Defined.

(** ** More on the scanner and on [Parse] *)

Lemma add64_0_r_total (R : gmap Z Z) : add64 (total_of R) 0 = total_of R.
Proof.
  unfold add64. rewrite Z.add_0_r. apply wrap64_id, total_of_range.
Qed.

Lemma total_of_add_literal Tk (lit : string) (v : Z) (R : gmap Z Z) :
  total_of (add_literal Tk lit v R)
  = add64 (total_of R) (token_value Tk lit v).
Proof.
  unfold add_literal, token_value. destruct lit as [|a lit].
  - apply total_of_add_value.
  - destruct (Tk !! String a lit).
    + apply total_of_add_value.
    + symmetry. apply add64_0_r_total.
Qed.

Lemma isdigit_cases (c : ascii) :
  isdigit c = true ->
  c = "0"%char \/ c = "1"%char \/ c = "2"%char \/ c = "3"%char
  \/ c = "4"%char \/ c = "5"%char \/ c = "6"%char \/ c = "7"%char
  \/ c = "8"%char \/ c = "9"%char.
Proof.
  destruct c as [[] [] [] [] [] [] [] []]; vm_compute; intros H;
    try discriminate; tauto.
Qed.

Lemma uint_of_string_digits (l : list ascii) :
  forallb isdigit l = true ->
  exists d, NilEmpty.uint_of_string (string_of_list_ascii l) = Some d.
Proof.
  induction l as [|c l IH]; intros H; [exists Decimal.Nil; reflexivity |].
  cbn [forallb] in H. apply andb_true_iff in H as [Hc Hl].
  destruct (IH Hl) as [d Hd]. cbn [string_of_list_ascii NilEmpty.uint_of_string].
  rewrite Hd.
  destruct (isdigit_cases c Hc) as [-> | [-> | [-> | [-> | [-> | [-> | [-> | [-> | [-> | ->]]]]]]]]];
    eexists; reflexivity.
Qed.

(** On a run of digits that is not empty, [std::stoll] gives a number
    between 0 and [INT64_MAX] or throws [std::out_of_range]. *)
Lemma stoll_digits (c : ascii) (ds : list ascii) :
  isdigit c = true -> forallb isdigit ds = true ->
  (exists v, stoll (string_of_list_ascii (c :: ds)) = Ok v
             /\ 0 <= v <= INT64_MAX)
  \/ stoll (string_of_list_ascii (c :: ds)) = Throw out_of_range.
Proof.
  intros Hc Hds.
  destruct (uint_of_string_digits (c :: ds)) as [d Hd].
  { cbn [forallb]. rewrite Hc, Hds. reflexivity. }
  unfold stoll. rewrite Hd. cbn [string_of_list_ascii].
  destruct (Z.leb_spec (Z.of_uint d) INT64_MAX) as [Hle | Hgt].
  - left. eexists. split; [reflexivity |]. split; [| exact Hle].
    unfold Z.of_uint. apply N2Z.is_nonneg.
  - right. reflexivity.
Qed.

Lemma span_len_forallb p (l : list ascii) :
  forallb p (take (span_len p l) l) = true.
Proof.
  induction l as [|c l IH]; [reflexivity |]. simpl.
  destruct (p c) eqn:Hc; [| reflexivity]. simpl. rewrite Hc, IH. reflexivity.
Qed.

Lemma scan_chars_outcome Tk (k : nat) (l : list ascii) (R : gmap Z Z) :
  (length l < k)%nat -> scan_outcome (scan_chars k Tk l R).
Proof.
  revert l R. induction k as [|k IH]; intros l R Hk; [lia |].
  destruct l as [|c l]; [constructor |].
  rewrite scan_chars_cons. simpl in Hk.
  destruct (isdigit c) eqn:Hc; [| apply IH; lia].
  cbv zeta.
  destruct (stoll_digits c (take (span_len isdigit l) l) Hc
              (span_len_forallb isdigit l)) as [(v & -> & _) | ->];
    cbn [outcome_bind]; [| constructor].
  apply IH. rewrite !length_drop. lia.
Qed.

Lemma scan_all_outcome Tk (l : list ascii) (R : gmap Z Z) :
  scan_outcome (scan_all Tk l R).
Proof. apply scan_chars_outcome. lia. Qed.

(** The totals of a scan that starts from an accumulator [R] are the totals
    of the scan from the empty accumulator, moved by the total of [R]. *)
Lemma scan_chars_shift Tk (k : nat) (l : list ascii) (R : gmap Z Z) :
  outcome_map total_of (scan_chars k Tk l R)
  = outcome_map (add64 (total_of R))
      (outcome_map total_of (scan_chars k Tk l ∅)).
Proof.
  revert l R. induction k as [|k IH]; intros l R; [reflexivity |].
  destruct l as [|c l].
  - cbn. rewrite add64_0_r_total. reflexivity.
  - rewrite !scan_chars_cons. destruct (isdigit c); [| apply IH].
    cbv zeta. destruct (stoll _) as [v | e |]; cbn [outcome_bind];
      try reflexivity.
    rewrite IH. rewrite (IH _ (add_literal Tk _ v ∅)).
    rewrite !total_of_add_literal.
    destruct (scan_chars k Tk _ ∅) as [R' | e |]; cbn; try reflexivity.
    f_equal. change (total_of ∅) with 0. wrap64_ring.
Qed.

Lemma scan_all_shift Tk (l : list ascii) (R : gmap Z Z) :
  outcome_map total_of (scan_all Tk l R)
  = outcome_map (add64 (total_of R)) (outcome_map total_of (scan_all Tk l ∅)).
Proof. apply scan_chars_shift. Qed.

(** X1: [Parse] ends for every text, with a total in the 64-bit range or
    with [std::out_of_range]; it never throws anything else. *)
Theorem Parse_returns_or_out_of_range (from : string) :
  (exists T, Parse from = Ok T /\ in_int64 T)
  \/ Parse from = Throw out_of_range.
Proof.
  rewrite Parse_scan_all.
  destruct (scan_all_outcome unit_table (list_ascii_of_string from) ∅)
    as [R |]; [left | right; reflexivity].
  exists (total_of R). split; [reflexivity | apply total_of_range].
Qed.

Lemma scan_all_no_digit Tk (l : list ascii) (R : gmap Z Z) :
  forallb (fun c => negb (isdigit c)) l = true -> scan_all Tk l R = Ok R.
Proof.
  induction l as [|c l IH]; intros H; [reflexivity |].
  cbn [forallb] in H. apply andb_true_iff in H as [Hc Hl].
  apply negb_true_iff in Hc. rewrite scan_all_skip by exact Hc. apply IH, Hl.
Qed.

(** X2: a text without a digit, the empty text included, parses to 0. *)
Theorem Parse_no_digit (from : string) :
  forallb (fun c => negb (isdigit c)) (list_ascii_of_string from) = true ->
  Parse from = Ok 0.
Proof.
  intros H. rewrite Parse_scan_all, scan_all_no_digit by exact H. reflexivity.
Qed.

Lemma Parse_no_digit_witness :
  Parse "" = Ok 0 /\ Parse "hours and minutes, h m s." = Ok 0.
Proof.
  split.
  - apply (Parse_no_digit ""). reflexivity.
  - apply (Parse_no_digit "hours and minutes, h m s."). reflexivity.
Defined.

Lemma Parse_cut (pre suf : string) :
  ends_clean (list_ascii_of_string pre) ->
  starts_with isalpha (list_ascii_of_string suf) = false ->
  Parse (pre +:+ suf)
  = outcome_bind (Parse pre)
      (fun a => outcome_bind (Parse suf) (fun b => Ok (add64 a b))).
Proof.
  intros Hpre Hsuf. rewrite !Parse_scan_all, list_ascii_app.
  rewrite (scan_all_app unit_table _ _ ∅ Hpre Hsuf).
  destruct (scan_all unit_table (list_ascii_of_string pre) ∅) as [R | e |];
    cbn [outcome_bind outcome_map]; try reflexivity.
  fold (outcome_map total_of (scan_all unit_table (list_ascii_of_string suf) R)).
  rewrite scan_all_shift.
  destruct (scan_all unit_table (list_ascii_of_string suf) ∅); reflexivity.
Qed.

(** X3: cut a text where the first part does not end in a digit and the
    second does not start with a letter. [Parse] of the whole is the 64-bit
    sum of the [Parse] of the parts, and throws when one of them does. *)
Theorem Parse_app (pre suf : string) :
  ends_clean (list_ascii_of_string pre) ->
  starts_with isalpha (list_ascii_of_string suf) = false ->
  Parse (pre +:+ suf)
  = outcome_bind (Parse pre)
      (fun a => outcome_bind (Parse suf) (fun b => Ok (add64 a b))).
Proof. apply Parse_cut. Qed.

Lemma Parse_app_witness :
  Parse ("1h " +:+ "30m")
  = outcome_bind (Parse "1h ")
      (fun a => outcome_bind (Parse "30m") (fun b => Ok (add64 a b))).
Proof. apply (Parse_app "1h " "30m"); reflexivity. Defined.

Lemma add64_0_l (t : Z) : in_int64 t -> add64 0 t = t.
Proof. intros H. unfold add64. rewrite Z.add_0_l. apply wrap64_id, H. Qed.

Lemma token_value_range Tk (lit : string) (v : Z) :
  in_int64 (token_value Tk lit v).
Proof.
  unfold token_value. destruct lit as [|a lit]; [apply wrap64_range |].
  destruct (Tk !! String a lit); [apply wrap64_range |].
  unfold in_int64, INT64_MIN, INT64_MAX. lia.
Qed.

(** X4: a text that is one token, digits and then letters, parses to the
    value of the digits times the multiplier of the letters: 60 when there
    are no letters, nothing when they are not in the table; it throws
    when the digits do not fit 64 bits. *)
Theorem Parse_single_token (ds lit : list ascii) :
  ds <> [] ->
  forallb isdigit ds = true ->
  forallb isalpha lit = true ->
  Parse (string_of_list_ascii (ds ++ lit))
  = outcome_map (token_value unit_table (string_of_list_ascii lit))
      (stoll (string_of_list_ascii ds)).
Proof.
  intros Hne Hds Hlit. destruct ds as [|c ds]; [congruence |].
  cbn [forallb] in Hds. apply andb_true_iff in Hds as [Hc Hds].
  rewrite Parse_scan_all, list_ascii_of_string_of_list_ascii.
  replace ((c :: ds) ++ lit) with (c :: ds ++ lit ++ [])
    by (rewrite app_nil_r; reflexivity).
  rewrite scan_all_token; try assumption; try reflexivity.
  - destruct (stoll _) as [v | e |]; cbn; try reflexivity.
    rewrite total_of_add_literal. change (total_of ∅) with 0.
    rewrite add64_0_l by apply token_value_range. reflexivity.
  - rewrite app_nil_r. destruct lit as [|a lit]; [reflexivity |].
    cbn [forallb] in Hlit. apply andb_true_iff in Hlit as [Ha _].
    cbn. apply isalpha_not_digit, Ha.
Qed.

Lemma Parse_single_token_witness :
  Parse "15minutes" = Ok 900 /\ Parse "15" = Ok 900 /\ Parse "15min" = Ok 0.
Proof.
  split; [| split].
  - apply (Parse_single_token (list_ascii_of_string "15")
             (list_ascii_of_string "minutes")); [discriminate | reflexivity ..].
  - apply (Parse_single_token (list_ascii_of_string "15") []);
      [discriminate | reflexivity ..].
  - apply (Parse_single_token (list_ascii_of_string "15")
             (list_ascii_of_string "min")); [discriminate | reflexivity ..].
Defined.

Lemma scan_all_same_multiplier (ds lit1 lit2 rest : list ascii) (R : gmap Z Z) :
  ds <> [] -> forallb isdigit ds = true ->
  lit1 <> [] -> forallb isalpha lit1 = true ->
  lit2 <> [] -> forallb isalpha lit2 = true ->
  starts_with isalpha rest = false ->
  unit_table !! string_of_list_ascii lit1
  = unit_table !! string_of_list_ascii lit2 ->
  scan_all unit_table (ds ++ lit1 ++ rest) R
  = scan_all unit_table (ds ++ lit2 ++ rest) R.
Proof.
  intros Hne Hds Hn1 Hl1 Hn2 Hl2 Hrest Heq.
  destruct ds as [|c ds]; [congruence |].
  cbn [forallb] in Hds. apply andb_true_iff in Hds as [Hc Hds].
  assert (Hnd : forall lit, lit <> [] -> forallb isalpha lit = true ->
                            starts_with isdigit (lit ++ rest) = false).
  { intros [|a lit] Hn Hl; [congruence |]. cbn [forallb] in Hl.
    apply andb_true_iff in Hl as [Ha _]. cbn. apply isalpha_not_digit, Ha. }
  change ((c :: ds) ++ ?x) with (c :: ds ++ x).
  rewrite !scan_all_token by auto.
  destruct (stoll _) as [v | e |]; cbn [outcome_bind]; try reflexivity.
  unfold add_literal. rewrite Heq.
  destruct lit1; [congruence |]. destruct lit2; [congruence |]. reflexivity.
Qed.

(** X5: the long literal of a unit can replace the short one in a token
    without a change to what [Parse] gives. *)
Theorem Parse_long_short_literal (short long : string)
    (pre ds rest : list ascii) :
  In (short, long) unit_aliases ->
  ends_clean pre ->
  ds <> [] -> forallb isdigit ds = true ->
  starts_with isalpha rest = false ->
  Parse (string_of_list_ascii (pre ++ ds ++ list_ascii_of_string long ++ rest))
  = Parse (string_of_list_ascii
             (pre ++ ds ++ list_ascii_of_string short ++ rest)).
Proof.
  intros Hin Hpre Hne Hds Hrest.
  rewrite !Parse_scan_all, !list_ascii_of_string_of_list_ascii.
  assert (Hstart : forall x, starts_with isalpha (ds ++ x) = false).
  { intros x. destruct ds as [|c ds]; [congruence |]. cbn [forallb] in Hds.
    apply andb_true_iff in Hds as [Hc _]. cbn. apply isdigit_not_alpha, Hc. }
  rewrite !(scan_all_app unit_table pre _ ∅ Hpre) by apply Hstart.
  destruct (scan_all unit_table pre ∅) as [R | e |]; cbn [outcome_bind];
    try reflexivity.
  f_equal.
  cbn [In unit_aliases] in Hin.
  repeat destruct Hin as [Hin | Hin]; try contradiction;
    injection Hin as <- <-;
    apply scan_all_same_multiplier; auto; try discriminate; reflexivity.
Qed.

Lemma Parse_long_short_literal_witness :
  Parse "1d 2hours 3m" = Parse "1d 2h 3m".
Proof.
  apply (Parse_long_short_literal "h" "hours" (list_ascii_of_string "1d ")
           (list_ascii_of_string "2") (list_ascii_of_string " 3m")).
  - cbn. tauto.
  - reflexivity.
  - discriminate.
  - reflexivity.
  - reflexivity.
Defined.

Lemma Parse_outcome (from : string) : scan_outcome (Parse from).
Proof.
  rewrite Parse_scan_all.
  destruct (scan_all_outcome unit_table (list_ascii_of_string from) ∅);
    constructor.
Qed.

(** X6: the order of the parts of a text does not matter to [Parse], for
    parts that neither end in a digit nor start with a letter. *)
Theorem Parse_commutes (a b : string) :
  ends_clean (list_ascii_of_string a) ->
  ends_clean (list_ascii_of_string b) ->
  starts_with isalpha (list_ascii_of_string a) = false ->
  starts_with isalpha (list_ascii_of_string b) = false ->
  Parse (a +:+ b) = Parse (b +:+ a).
Proof.
  intros Hea Heb Hsa Hsb.
  rewrite (Parse_cut a b Hea Hsb), (Parse_cut b a Heb Hsa).
  destruct (Parse_outcome a) as [x |], (Parse_outcome b) as [y |];
    cbn [outcome_bind]; try reflexivity.
  f_equal. unfold add64. f_equal. lia.
Qed.

Lemma Parse_commutes_witness :
  Parse ("30m " +:+ "1h ") = Parse ("1h " +:+ "30m ").
Proof. apply (Parse_commutes "30m " "1h "); reflexivity. Defined.

(** X7: a character that is neither a digit nor a letter, put between a
    part that does not end in a digit and a part that does not start with a
    letter, changes nothing: separators between tokens are optional and
    any such character will do. *)
Theorem Parse_separator (pre suf : string) (c : ascii) :
  isdigit c = false ->
  isalpha c = false ->
  ends_clean (list_ascii_of_string pre) ->
  starts_with isalpha (list_ascii_of_string suf) = false ->
  Parse (pre +:+ String c suf) = Parse (pre +:+ suf).
Proof.
  intros Hd Ha Hpre Hsuf.
  rewrite (Parse_cut pre (String c suf) Hpre) by exact Ha.
  rewrite (Parse_cut pre suf Hpre Hsuf).
  destruct (Parse pre) as [x | e |]; cbn [outcome_bind]; try reflexivity.
  rewrite !Parse_scan_all. cbn [list_ascii_of_string].
  rewrite scan_all_skip by exact Hd. reflexivity.
Qed.

Lemma Parse_separator_witness :
  Parse ("2h" +:+ String "," "30m") = Parse ("2h" +:+ "30m").
Proof. apply (Parse_separator "2h" "30m" ","); reflexivity. Defined.

(** X8: a token whose digits do not fit 64 bits makes the whole [Parse]
    throw [std::out_of_range], whatever surrounds it. *)
Theorem Parse_token_out_of_range (pre ds rest : list ascii) :
  ends_clean pre ->
  ds <> [] -> forallb isdigit ds = true ->
  starts_with isdigit rest = false ->
  stoll (string_of_list_ascii ds) = Throw out_of_range ->
  Parse (string_of_list_ascii (pre ++ ds ++ rest)) = Throw out_of_range.
Proof.
  intros Hpre Hne Hds Hrest Hthrow.
  rewrite Parse_scan_all, list_ascii_of_string_of_list_ascii.
  destruct ds as [|c ds]; [congruence |].
  cbn [forallb] in Hds. apply andb_true_iff in Hds as [Hc Hds].
  rewrite (scan_all_app unit_table pre _ ∅ Hpre)
    by (cbn; apply isdigit_not_alpha, Hc).
  destruct (scan_all_outcome unit_table pre ∅) as [R |]; [| reflexivity].
  cbn [outcome_bind]. change ((c :: ds) ++ rest) with (c :: ds ++ rest).
  rewrite scan_all_cons, Hc. cbv zeta.
  rewrite (span_len_app isdigit ds rest Hds), (span_len_stop isdigit rest Hrest).
  rewrite Nat.add_0_r, take_app_length, Hthrow. reflexivity.
Qed.

Lemma Parse_token_out_of_range_witness :
  Parse "1h 9223372036854775808s 5m" = Throw out_of_range.
Proof.
  apply (Parse_token_out_of_range (list_ascii_of_string "1h ")
           (list_ascii_of_string "9223372036854775808")
           (list_ascii_of_string "s 5m")); try reflexivity. discriminate.
Defined.

Lemma add_value_keys Tk (m v : Z) (R : gmap Z Z) :
  known_multiplier Tk m -> known_keys Tk R -> known_keys Tk (add_value m v R).
Proof.
  intros Hm HR k x. unfold add_value.
  destruct (R !! m); rewrite lookup_insert; case_decide; subst;
    eauto.
Qed.

Lemma add_literal_keys Tk (lit : string) (v : Z) (R : gmap Z Z) :
  known_keys Tk R -> known_keys Tk (add_literal Tk lit v R).
Proof.
  intros HR. unfold add_literal. destruct lit as [|a lit].
  - apply add_value_keys; [left; reflexivity | exact HR].
  - destruct (Tk !! String a lit) as [m|] eqn:Hm; [| exact HR].
    apply add_value_keys; [right; eauto | exact HR].
Qed.

Lemma scan_chars_keys Tk (k : nat) (l : list ascii) (R R' : gmap Z Z) :
  known_keys Tk R -> scan_chars k Tk l R = Ok R' -> known_keys Tk R'.
Proof.
  revert l R. induction k as [|k IH]; intros l R HR Hscan; [discriminate |].
  destruct l as [|c l]; [injection Hscan as <-; exact HR |].
  rewrite scan_chars_cons in Hscan. destruct (isdigit c); [| eauto].
  cbv zeta in Hscan. destruct (stoll _) as [v | e |]; [| discriminate ..].
  cbn [outcome_bind] in Hscan. eapply IH; [| exact Hscan].
  apply add_literal_keys, HR.
Qed.

Lemma unit_table_multipliers (lit : string) (k : Z) :
  unit_table !! lit = Some k ->
  In k [1; 60; 3600; 86400; 2419200; 31536000].
Proof.
  intros H. apply elem_of_list_to_map_2 in H.
  repeat (apply elem_of_cons in H as [H | H];
          [injection H as _ <-; cbn; tauto |]).
  apply elem_of_nil in H. contradiction.
Qed.

(** X9: the keys of the accumulator that [ScanTokens] returns for the
    table of [Parse] are among the six multipliers of the table. *)
Theorem ScanTokens_keys (src : string) (R : gmap Z Z) (k v : Z) :
  outcome_map fst (ScanTokens (S (String.length src))
                     (CScanner_new src unit_table)) = Ok R ->
  R !! k = Some v ->
  In k [1; 60; 3600; 86400; 2419200; 31536000].
Proof.
  rewrite ScanTokens_scan_all. intros Hscan Hk.
  assert (HR : known_keys unit_table R).
  { eapply scan_chars_keys; [| exact Hscan].
    intros k' v' H'. rewrite lookup_empty in H'. discriminate. }
  destruct (HR k v Hk) as [-> | [lit Hlit]]; [cbn; tauto |].
  eapply unit_table_multipliers, Hlit.
Qed.

Lemma ScanTokens_keys_witness :
  outcome_map fst (ScanTokens 9 (CScanner_new "1h 2h 5x" unit_table))
  = Ok {[ 3600 := 3 ]}
  /\ In 3600 [1; 60; 3600; 86400; 2419200; 31536000].
Proof.
  assert (H : outcome_map fst
                (ScanTokens 9 (CScanner_new "1h 2h 5x" unit_table))
              = Ok {[ 3600 := 3 ]}) by (vm_compute; reflexivity).
  split; [exact H |].
  apply (ScanTokens_keys "1h 2h 5x" {[ 3600 := 3 ]} 3600 3 H).
  vm_compute. reflexivity.
Defined.

(** X10: [AddValue] never fails; the key is in the accumulator afterwards,
    the other entries are as before, and the total that [Parse] computes
    from the accumulator has moved by [Multiplier * Value], whether the key
    was there or not. *)
Theorem AddValue_total (st : CScanner) (Multiplier Value : Z) :
  exists st',
    AddValue Multiplier Value st = Ok (tt, st')
    /\ total_of (m_Result st')
       = add64 (total_of (m_Result st)) (mul64 Multiplier Value)
    /\ is_Some (m_Result st' !! Multiplier)
    /\ (forall k, k <> Multiplier -> m_Result st' !! k = m_Result st !! k).
Proof.
  eexists. split; [apply AddValue_run |]. cbn [m_Result set_Result].
  split; [apply total_of_add_value |]. unfold add_value.
  destruct (m_Result st !! Multiplier); split;
    try (rewrite lookup_insert_eq; eauto);
    intros k Hk; apply lookup_insert_ne; congruence.
Qed.

(** X11: one call of [ScanToken] from a position inside the source ends
    normally or with [std::out_of_range]; when it ends normally the position
    has moved forward by at least one character and not beyond the end, and
    the source, the table and [m_Start] are as before. *)
Theorem ScanToken_progress (fuel : nat) (st : CScanner) :
  m_Start st = m_Current st ->
  (m_Current st < length (chars st))%nat ->
  (length (chars st) < fuel)%nat ->
  scan_outcome (ScanToken fuel st)
  /\ forall st', ScanToken fuel st = Ok (tt, st') ->
       (m_Current st < m_Current st' <= length (chars st))%nat
       /\ m_Source st' = m_Source st /\ m_Tokens st' = m_Tokens st
       /\ m_Start st' = m_Start st.
Proof.
  intros Hstart Hlt Hfuel.
  rewrite (ScanToken_run fuel st Hstart), (scan_step fuel st Hlt Hfuel).
  cbv zeta.
  set (c := nth (m_Current st) (chars st) zero).
  set (l' := drop (S (m_Current st)) (chars st)).
  set (nd := span_len isdigit l'). set (r1 := drop nd l').
  set (na := span_len isalpha r1).
  assert (Hnd : (nd <= length l')%nat) by apply span_len_le.
  assert (Hna : (na <= length r1)%nat) by apply span_len_le.
  assert (Hl' : length l' = (length (chars st) - S (m_Current st))%nat)
    by apply length_drop.
  assert (Hr1 : length r1 = (length l' - nd)%nat) by apply length_drop.
  destruct (isdigit c) eqn:Hc.
  - destruct (stoll_digits c (take nd l') Hc (span_len_forallb isdigit l'))
      as [(v & -> & _) | ->]; cbn [outcome_bind].
    + split; [constructor |]. intros st' H. injection H as <-.
      cbn [m_Current m_Source m_Tokens m_Start]. repeat split; auto; lia.
    + split; [constructor | discriminate].
  - split; [constructor |]. intros st' H. injection H as <-.
    cbn [m_Current m_Source m_Tokens m_Start]. repeat split; auto; lia.
Qed.

Lemma ScanToken_progress_witness :
  ScanToken 9 (mkCScanner "1h 30min" unit_table ∅ 3 3)
  = Ok (tt, mkCScanner "1h 30min" unit_table ∅ 3 8)
  /\ (3 < 8 <= length (list_ascii_of_string "1h 30min"))%nat.
Proof.
  assert (H : ScanToken 9 (mkCScanner "1h 30min" unit_table ∅ 3 3)
              = Ok (tt, mkCScanner "1h 30min" unit_table ∅ 3 8))
    by (vm_compute; reflexivity).
  split; [exact H |].
  destruct (ScanToken_progress 9 (mkCScanner "1h 30min" unit_table ∅ 3 3))
    as [_ Hp]; [reflexivity | simpl; lia | simpl; lia |].
  destruct (Hp _ H) as [Hpos _]. exact Hpos.
Defined.

(** ** More on the duration value *)

Lemma components_exact (s m h d : Z) :
  0 <= s -> 0 <= m -> 0 <= h -> 0 <= d ->
  s + 60 * m + 3600 * h + 86400 * d <= INT64_MAX ->
  add64 (add64 (add64 s (mul64 m 60)) (mul64 h 3600)) (mul64 d 86400)
  = s + 60 * m + 3600 * h + 86400 * d.
Proof.
  intros Hs Hm Hh Hd Hmax. unfold add64, mul64.
  assert (Hin : forall z, 0 <= z <= s + 60 * m + 3600 * h + 86400 * d ->
                          wrap64 z = z)
    by (intros z Hz; apply wrap64_id;
        unfold in_int64, INT64_MIN, INT64_MAX in *; lia).
  rewrite (Hin (m * 60)), (Hin (h * 3600)), (Hin (d * 86400)) by lia.
  rewrite (Hin (s + m * 60)) by lia.
  rewrite (Hin (s + m * 60 + h * 3600)) by lia.
  rewrite Hin by lia. lia.
Qed.

(** X12: built from components that are not negative and whose total fits
    64 bits, the value is the one built from the total
    [seconds + 60 minutes + 3600 hours + 86400 days]. *)
Theorem components_total (s m h d : Z) :
  0 <= s -> 0 <= m -> 0 <= h -> 0 <= d ->
  s + 60 * m + 3600 * h + 86400 * d <= INT64_MAX ->
  CTimePeriod_components s m h d
  = CTimePeriod_duration (s + 60 * m + 3600 * h + 86400 * d).
Proof.
  intros. unfold CTimePeriod_components, CTimePeriod_duration.
  rewrite components_exact by assumption. reflexivity.
Qed.

Lemma components_total_witness :
  CTimePeriod_components 0 90 0 0 = CTimePeriod_duration 5400.
Proof.
  apply (components_total 0 90 0 0); unfold INT64_MAX; lia.
Defined.

(** X13: built from components that are already in their ranges, the
    value gives the same components back. *)
Theorem components_roundtrip (s m h d : Z) :
  0 <= s < 60 -> 0 <= m < 60 -> 0 <= h < 24 -> 0 <= d ->
  86400 * d + 86399 <= INT64_MAX ->
  seconds (CTimePeriod_components s m h d) = s
  /\ minutes (CTimePeriod_components s m h d) = m
  /\ hours (CTimePeriod_components s m h d) = h
  /\ days (CTimePeriod_components s m h d) = d.
Proof.
  intros Hs Hm Hh Hd Hmax.
  unfold CTimePeriod_components.
  rewrite components_exact by lia.
  unfold seconds, minutes, hours, days, Validate, with_TotalDuration.
  cbn [m_TotalDuration m_Days m_Hours m_Minutes m_Seconds].
  set (T := s + 60 * m + 3600 * h + 86400 * d).
  assert (HD : T ÷ 86400 = d /\ Z.rem T 86400 = s + 60 * m + 3600 * h).
  { rewrite Z.quot_div_nonneg, Z.rem_mod_nonneg by (unfold T; lia).
    unfold T.
    replace (s + 60 * m + 3600 * h + 86400 * d)
      with ((s + 60 * m + 3600 * h) + d * 86400) by lia.
    rewrite Z.div_add, Z.mod_add by lia.
    rewrite Z.div_small, Z.mod_small by lia. lia. }
  destruct HD as [-> ->].
  assert (HH : (s + 60 * m + 3600 * h) ÷ 3600 = h
               /\ Z.rem (s + 60 * m + 3600 * h) 3600 = s + 60 * m).
  { rewrite Z.quot_div_nonneg, Z.rem_mod_nonneg by lia.
    replace (s + 60 * m + 3600 * h) with ((s + 60 * m) + h * 3600) by lia.
    rewrite Z.div_add, Z.mod_add by lia.
    rewrite Z.div_small, Z.mod_small by lia. lia. }
  destruct HH as [-> ->].
  rewrite Z.quot_div_nonneg, Z.rem_mod_nonneg by lia.
  replace (s + 60 * m) with (s + m * 60) by lia.
  rewrite Z.div_add, Z.mod_add by lia.
  rewrite Z.div_small, Z.mod_small by lia. repeat split; lia.
Qed.

Lemma components_roundtrip_witness :
  seconds (CTimePeriod_components 15 30 5 2) = 15
  /\ minutes (CTimePeriod_components 15 30 5 2) = 30
  /\ hours (CTimePeriod_components 15 30 5 2) = 5
  /\ days (CTimePeriod_components 15 30 5 2) = 2.
Proof.
  apply (components_roundtrip 15 30 5 2); unfold INT64_MAX; lia.
Defined.

(** X14: for a constructed value, [isZero] holds exactly when the four
    components are zero. *)
Theorem isZero_components (p : CTimePeriod) :
  constructed p ->
  (isZero p = true
   <-> days p = 0 /\ hours p = 0 /\ minutes p = 0 /\ seconds p = 0).
Proof.
  intros Hc. pose proof (Validate_sum (duration p)) as Hsum.
  cbv zeta in Hsum. rewrite <- (constructed_Validate p Hc) in Hsum.
  unfold isZero. fold (duration p). rewrite Z.eqb_eq. split.
  - intros H0. rewrite (constructed_Validate p Hc), H0. cbn. tauto.
  - intros (Hd & Hh & Hm & Hs). rewrite <- Hsum, Hd, Hh, Hm, Hs. reflexivity.
Qed.

Lemma isZero_components_witness :
  isZero (CTimePeriod_components 0 0 0 0) = true
  <-> days (CTimePeriod_components 0 0 0 0) = 0
      /\ hours (CTimePeriod_components 0 0 0 0) = 0
      /\ minutes (CTimePeriod_components 0 0 0 0) = 0
      /\ seconds (CTimePeriod_components 0 0 0 0) = 0.
Proof.
  apply (isZero_components (CTimePeriod_components 0 0 0 0)).
  apply constructed_components; unfold in_int64, INT64_MIN, INT64_MAX; lia.
Defined.

Lemma string_app_empty (s t : string) :
  s +:+ t = EmptyString -> s = EmptyString /\ t = EmptyString.
Proof. destruct s; [cbn; tauto | discriminate]. Qed.

(** X15: [toString] never returns the empty text. *)
Theorem toString_nonempty (p : CTimePeriod) : toString p <> EmptyString.
Proof.
  rewrite toString_components. unfold component. intros H.
  apply string_app_empty in H as [Hd H].
  apply string_app_empty in H as [Hh H].
  apply string_app_empty in H as [Hm Hs].
  destruct (0 <? m_Days p);
    [apply string_app_empty in Hd as [_ Hd]; discriminate |].
  destruct (0 <? m_Hours p);
    [apply string_app_empty in Hh as [_ Hh]; discriminate |].
  destruct (0 <? m_Minutes p);
    [apply string_app_empty in Hm as [_ Hm]; discriminate |].
  rewrite orb_true_r in Hs.
  apply string_app_empty in Hs as [_ Hs]. discriminate.
Qed.

Lemma Validate_nonpos (T : Z) :
  T <= 0 ->
  T ÷ 86400 <= 0 /\ Z.rem T 86400 ÷ 3600 <= 0
  /\ Z.rem (Z.rem T 86400) 3600 ÷ 60 <= 0
  /\ Z.rem (Z.rem (Z.rem T 86400) 3600) 60 = Z.rem T 60.
Proof.
  intros HT.
  replace T with (- (- T)) by lia. set (U := - T). assert (0 <= U) by lia.
  clearbody U.
  repeat rewrite ?Z.quot_opp_l, ?Z.rem_opp_l by lia.
  rewrite (Z.rem_mod_nonneg U 86400), (Z.rem_mod_nonneg U 60) by lia.
  pose proof (Z.mod_pos_bound U 86400 ltac:(lia)) as B1.
  rewrite (Z.rem_mod_nonneg (U mod 86400) 3600) by lia.
  pose proof (Z.mod_pos_bound (U mod 86400) 3600 ltac:(lia)) as B2.
  rewrite (Z.rem_mod_nonneg ((U mod 86400) mod 3600) 60) by lia.
  repeat split.
  - pose proof (Z.quot_pos U 86400 ltac:(lia) ltac:(lia)). lia.
  - pose proof (Z.quot_pos (U mod 86400) 3600 ltac:(lia) ltac:(lia)). lia.
  - pose proof (Z.quot_pos ((U mod 86400) mod 3600) 60 ltac:(lia) ltac:(lia)).
    lia.
  - f_equal.
    rewrite (Z.mod_mod_divide _ 3600 60) by (exists 60; lia).
    apply Z.mod_mod_divide. exists 1440. lia.
Qed.

Lemma format_int_negative (n : Z) :
  n < 0 ->
  format_int n = String "-" (format_int (- n)).
Proof.
  intros Hn. destruct n as [|p|p]; try lia.
  unfold format_int. cbn [Z.to_int Z.opp NilZero.string_of_int]. reflexivity.
Qed.

Lemma toString_seconds_only (T : Z) :
  T < 0 ->
  toString (CTimePeriod_duration T) = format_int (Z.rem T 60) +:+ "s".
Proof.
  intros HT. rewrite toString_components.
  unfold CTimePeriod_duration, Validate, with_TotalDuration, component.
  cbn [m_TotalDuration m_Days m_Hours m_Minutes m_Seconds].
  destruct (Validate_nonpos T ltac:(lia)) as (Hd & Hh & Hm & ->).
  destruct (Z.ltb_spec 0 (T ÷ 86400)); [lia |].
  destruct (Z.ltb_spec 0 (Z.rem T 86400 ÷ 3600)); [lia |].
  destruct (Z.ltb_spec 0 (Z.rem (Z.rem T 86400) 3600 ÷ 60)); [lia |].
  rewrite orb_true_r. reflexivity.
Qed.

(** X16: for a negative total [toString] prints the seconds alone, the
    remainder of the total by 60: minus one hour renders as ["0s"]. *)
Theorem toString_negative (T : Z) :
  T < 0 ->
  toString (CTimePeriod_duration T) = format_int (Z.rem T 60) +:+ "s".
Proof. apply toString_seconds_only. Qed.

Lemma toString_negative_witness :
  toString (CTimePeriod_duration (-3600)) = "0s"%string
  /\ toString (CTimePeriod_duration (-3725)) = "-5s"%string.
Proof.
  split.
  - apply (toString_negative (-3600)). lia.
  - apply (toString_negative (-3725)). lia.
Defined.

(** X17: the text of a negative total does not parse back to it: the
    scanner passes over the minus sign, and what is left is the remainder
    of the total by 60 without its sign. *)
Theorem Parse_toString_negative (T : Z) :
  INT64_MIN <= T < 0 ->
  Parse (toString (CTimePeriod_duration T)) = Ok (- Z.rem T 60).
Proof.
  intros [Hmin HT]. rewrite (toString_seconds_only T HT).
  pose proof (Z.rem_bound_pos_neg T 60 ltac:(lia) ltac:(lia)) as Hb.
  set (r := Z.rem T 60) in *. clearbody r.
  rewrite Parse_scan_all, list_ascii_app. cbn [list_ascii_of_string].
  assert (Hscan : forall n R, 0 <= n < 60 ->
            scan_all unit_table (list_ascii_of_string (format_int n) ++ ["s"%char]) R
            = Ok (add_value 1 n R)).
  { intros n R Hn.
    rewrite (scan_all_printed n 1 "s" [] R);
      [apply scan_all_nil | unfold INT64_MAX; lia | reflexivity ..]. }
  assert (Htot : forall n, 0 <= n < 60 ->
            total_of (add_value 1 n ∅) = n).
  { intros n Hn. rewrite total_of_add_value. change (total_of ∅) with 0.
    unfold add64, mul64. rewrite Z.mul_1_l, Z.add_0_l.
    assert (Hid : wrap64 n = n)
      by (apply wrap64_id; unfold in_int64, INT64_MIN, INT64_MAX; lia).
    rewrite Hid. exact Hid. }
  destruct (Z.eq_dec r 0) as [-> | Hne].
  - rewrite (Hscan 0 ∅) by lia. cbn [outcome_map outcome_bind].
    rewrite Htot by lia. reflexivity.
  - rewrite format_int_negative by lia. cbn [list_ascii_of_string app].
    rewrite scan_all_skip by reflexivity.
    rewrite (Hscan (- r) ∅) by lia. cbn [outcome_map outcome_bind].
    rewrite Htot by lia. reflexivity.
Qed.

Lemma Parse_toString_negative_witness :
  Parse (toString (CTimePeriod_duration (-3725))) = Ok 5.
Proof.
  apply (Parse_toString_negative (-3725)). unfold INT64_MIN. lia.
Defined.

(** X18: totals that differ, between 0 and [INT64_MAX], render as texts
    that differ. *)
Theorem toString_injective (T1 T2 : Z) :
  0 <= T1 <= INT64_MAX ->
  0 <= T2 <= INT64_MAX ->
  T1 <> T2 ->
  toString (CTimePeriod_duration T1) <> toString (CTimePeriod_duration T2).
Proof.
  intros H1 H2 Hne Heq.
  pose proof (Parse_toString T1 H1) as P1.
  pose proof (Parse_toString T2 H2) as P2.
  rewrite Heq, P2 in P1. injection P1 as ->. apply Hne. reflexivity.
Qed.

Lemma toString_injective_witness :
  toString (CTimePeriod_duration 3600) <> toString (CTimePeriod_duration 3660).
Proof.
  apply (toString_injective 3600 3660); unfold INT64_MAX; lia.
Defined.

Lemma string_app_inv_tail (a b t : string) : a +:+ t = b +:+ t -> a = b.
Proof.
  intros H. apply (f_equal list_ascii_of_string) in H.
  rewrite !list_ascii_app in H. apply app_inv_tail in H.
  rewrite <- (string_of_list_ascii_of_string a),
          <- (string_of_list_ascii_of_string b), H. reflexivity.
Qed.

Lemma format_int_injective (a b : Z) : format_int a = format_int b -> a = b.
Proof.
  intros H. pose proof (format_int_reads_back a) as Ha.
  rewrite H, format_int_reads_back in Ha. injection Ha as ->. reflexivity.
Qed.

(** X19: values with the same [asSqlInterval] text have the same total. *)
Theorem asSqlInterval_injective (p q : CTimePeriod) :
  asSqlInterval p = asSqlInterval q -> duration p = duration q.
Proof.
  unfold asSqlInterval. intros H.
  change ("interval " +:+ ?x) with
    (String "i" (String "n" (String "t" (String "e" (String "r"
      (String "v" (String "a" (String "l" (String " " x))))))))) in H.
  injection H as H. apply string_app_inv_tail in H.
  apply format_int_injective, H.
Qed.

Lemma asSqlInterval_injective_witness :
  duration (CTimePeriod_components 30 1 0 0) = duration (CTimePeriod_duration 90).
Proof.
  apply (asSqlInterval_injective (CTimePeriod_components 30 1 0 0)
           (CTimePeriod_duration 90)).
  vm_compute. reflexivity.
Defined.

(** ** The order of the defaulted comparison *)

Lemma lex_Lt (c r : comparison) : lex c r = Lt <-> c = Lt \/ (c = Eq /\ r = Lt).
Proof. destruct c, r; cbn; intuition congruence. Qed.

Lemma lex_Eq (c r : comparison) : lex c r = Eq <-> c = Eq /\ r = Eq.
Proof. destruct c, r; cbn; intuition congruence. Qed.

Lemma lex_CompOpp (c r : comparison) :
  CompOpp (lex c r) = lex (CompOpp c) (CompOpp r).
Proof. destruct c; reflexivity. Qed.

Lemma operator_lt_iff (a b : CTimePeriod) :
  operator_lt a b = true
  <-> m_TotalDuration a < m_TotalDuration b
      \/ (m_TotalDuration a = m_TotalDuration b
          /\ (m_Days a < m_Days b
              \/ (m_Days a = m_Days b
                  /\ (m_Hours a < m_Hours b
                      \/ (m_Hours a = m_Hours b
                          /\ (m_Minutes a < m_Minutes b
                              \/ (m_Minutes a = m_Minutes b
                                  /\ m_Seconds a < m_Seconds b))))))).
Proof.
  unfold operator_lt.
  assert (H : forall c, match c with Lt => true | _ => false end = true
                        <-> c = Lt) by (intros []; intuition congruence).
  rewrite H. unfold spaceship.
  rewrite !lex_Lt, !Z.compare_lt_iff, !Z.compare_eq_iff. reflexivity.
Qed.

Lemma operator_eq_iff (a b : CTimePeriod) : operator_eq a b = true <-> a = b.
Proof.
  unfold operator_eq. rewrite !andb_true_iff, !Z.eqb_eq. split.
  - intros ((((H1 & H2) & H3) & H4) & H5).
    destruct a, b; cbn in *; congruence.
  - intros ->. tauto.
Qed.

(** X20: on all values of the record, [==] is equality of the five
    members and agrees with [<=>]; [<=>] turns around when its arguments
    are swapped; [<] is transitive, and of two values one is below the other
    or they are equal. *)
Theorem spaceship_order :
  (forall a b, operator_eq a b = true <-> a = b)
  /\ (forall a b, spaceship a b = Eq <-> operator_eq a b = true)
  /\ (forall a b, spaceship b a = CompOpp (spaceship a b))
  /\ (forall a b c, operator_lt a b = true -> operator_lt b c = true ->
                    operator_lt a c = true)
  /\ (forall a b, operator_lt a b = true \/ a = b \/ operator_lt b a = true).
Proof.
  split; [exact operator_eq_iff |]. split; [| split; [| split]].
  - intros a b. rewrite operator_eq_iff. unfold spaceship.
    rewrite !lex_Eq, !Z.compare_eq_iff. split.
    + intros (H1 & H2 & H3 & H4 & H5). destruct a, b; cbn in *; congruence.
    + intros ->. tauto.
  - intros a b. unfold spaceship.
    rewrite !lex_CompOpp, <- !Z.compare_antisym. reflexivity.
  - intros a b c. rewrite !operator_lt_iff. lia.
  - intros a b. rewrite !operator_lt_iff.
    assert (H : a = b <-> m_TotalDuration a = m_TotalDuration b
                          /\ m_Days a = m_Days b /\ m_Hours a = m_Hours b
                          /\ m_Minutes a = m_Minutes b
                          /\ m_Seconds a = m_Seconds b).
    { split; [intros ->; tauto |].
      intros (H1 & H2 & H3 & H4 & H5). destruct a, b; cbn in *; congruence. }
    rewrite H. lia.
Qed.

Lemma scan_loop_final (fuel k : nat) (st st' : CScanner) :
  (length (chars st) < fuel)%nat ->
  (m_Current st <= length (chars st))%nat ->
  while_ k (let* e := AtEnd in ret (negb e))
    (modify (fun s => set_Start (m_Current s) s) >> ScanToken fuel) st
  = Ok (tt, st') ->
  m_Current st' = length (chars st')
  /\ m_Source st' = m_Source st /\ m_Tokens st' = m_Tokens st.
Proof.
  intros Hfuel. revert st Hfuel.
  induction k as [|k IH]; intros st Hfuel Hcur Hrun; [discriminate |].
  rewrite while_unfold, bind_unfold in Hrun.
  unfold AtEnd at 1, gets at 1, ret at 1 in Hrun.
  rewrite <- length_list_ascii in Hrun. fold (chars st) in Hrun.
  destruct (Nat.leb_spec (length (chars st)) (m_Current st)) as [Hge | Hlt];
    cbn [negb] in Hrun.
  - injection Hrun as <-. repeat split. lia.
  - rewrite (scan_step fuel st Hlt Hfuel) in Hrun. cbv zeta in Hrun.
    pose proof (span_len_le isdigit (drop (S (m_Current st)) (chars st))) as H1.
    pose proof (span_len_le isalpha
      (drop (span_len isdigit (drop (S (m_Current st)) (chars st)))
            (drop (S (m_Current st)) (chars st)))) as H2.
    rewrite !length_drop in H1. repeat rewrite length_drop in H2.
    destruct (isdigit _).
    + destruct (stoll _) as [v | e |]; cbn [outcome_bind] in Hrun;
        [| discriminate ..].
      apply IH in Hrun; [exact Hrun | exact Hfuel |].
      unfold chars. cbn [m_Source m_Current]. fold (chars st). lia.
    + apply IH in Hrun; [exact Hrun | exact Hfuel |].
      unfold chars. cbn [m_Source m_Current]. fold (chars st). lia.
Qed.

(** X21: when [ScanTokens] returns, the scanner stands at the end of the
    source; source and table are the ones it was built with and the result
    is its accumulator. *)
Theorem ScanTokens_consumes_source (src : string) (Tk : gmap string Z)
    (R : gmap Z Z) (st' : CScanner) :
  ScanTokens (S (String.length src)) (CScanner_new src Tk) = Ok (R, st') ->
  m_Current st' = String.length src
  /\ m_Source st' = src /\ m_Tokens st' = Tk /\ m_Result st' = R.
Proof.
  unfold ScanTokens. rewrite bind_unfold.
  destruct (while_ _ _ _ _) as [[[] s1] | e |] eqn:Hloop; [| discriminate ..].
  unfold gets. intros H. injection H as <- <-.
  apply scan_loop_final in Hloop.
  - destruct Hloop as (Hc & Hs & Ht). cbn [CScanner_new m_Source m_Tokens] in *.
    rewrite Hc. unfold chars. rewrite Hs, length_list_ascii. auto.
  - unfold chars. cbn. rewrite length_list_ascii. lia.
  - cbn. lia.
Qed.

Lemma ScanTokens_consumes_source_witness :
  ScanTokens 8 (CScanner_new "2h 30m " unit_table)
  = Ok ({[ 60 := 30; 3600 := 2 ]},
        mkCScanner "2h 30m " unit_table {[ 60 := 30; 3600 := 2 ]} 6 7)
  /\ (7 = String.length "2h 30m ")%nat.
Proof.
  assert (H : ScanTokens 8 (CScanner_new "2h 30m " unit_table)
              = Ok ({[ 60 := 30; 3600 := 2 ]},
                    mkCScanner "2h 30m " unit_table
                      {[ 60 := 30; 3600 := 2 ]} 6 7))
    by (vm_compute; reflexivity).
  split; [exact H |].
  destruct (ScanTokens_consumes_source "2h 30m " unit_table _ _ H) as [Hc _].
  exact Hc.
Defined.

